(** * URI decoders of markitdown: [_uri_utils.py]

    A shallow embedding of [file_uri_to_path] and [parse_data_uri] together
    with the parts of the Python standard library they call
    ([str.partition], [str.split], [base64.b64decode],
    [urllib.parse.urlparse], [urllib.parse.unquote],
    [urllib.parse.unquote_to_bytes], [urllib.request.url2pathname],
    [os.path.abspath]), followed by the properties the specification states
    about them.

    Representation choices.
    - A Python [str] is represented by the [string] of the bytes of its UTF-8
      encoding (the specification assumes well-formed unicode text), so that
      [s.encode('utf-8')] is [list_byte_of_string] and [s.encode('ascii')]
      succeeds exactly when every character code is below 128.  Every
      delimiter the decoders look for is an ASCII character, and an ASCII
      byte never occurs inside a multi-byte UTF-8 sequence, so searching and
      splitting on the bytes agrees with searching and splitting on the code
      points.
    - Python [bytes] are [list byte].
    - Exceptions are values of [error] carried by [result]; the source raises
      [ValueError] everywhere, the constructors keep apart where it was
      raised.
    - The library functions follow CPython 3.11 on a POSIX platform; what
      they read from the environment is passed explicitly in a [platform]
      record. *)

From Stdlib Require Import Bool List Arith ZArith NArith Lia.
From Stdlib Require Import Strings.Ascii Strings.String Strings.Byte.
Import ListNotations.

Local Open Scope list_scope.
Local Open Scope string_scope.

(* ================================================================== *)
(** ** Failures *)

Inductive error : Type :=
| NotADataURI        (* line 44: the input does not start with [data:]     *)
| MalformedDataURI   (* line 49: no [,] separator                          *)
| InvalidBase64      (* line 76: raised inside [base64.b64decode]          *)
| InvalidScheme      (* line 22: the scheme is not [file]                  *)
| InvalidURL.        (* line 20: raised inside [urllib.parse.urlparse]     *)

Inductive result (A : Type) : Type :=
| Ok (a : A)
| Err (e : error).

Arguments Ok {A} a.
Arguments Err {A} e.

Definition bind {A B : Type} (r : result A) (k : A -> result B) : result B :=
  match r with
  | Ok a => k a
  | Err e => Err e
  end.

Notation "x <- r ;; k" := (bind r (fun x => k))
  (at level 61, r at next level, right associativity).
Notation "' p <- r ;; k" := (bind r (fun x => match x with p => k end))
  (at level 61, p pattern, r at next level, right associativity).

(* ================================================================== *)
(** ** Python string operations *)

Module PyStr.

(** [ord(c)] *)
Definition ord (c : ascii) : Z := Z.of_N (N_of_ascii c).

(** [c.isascii()] on one byte of the encoding *)
Definition isascii_char (c : ascii) : bool := (ord c <? 128)%Z.

(** [s.isascii()] *)
Fixpoint isascii (s : string) : bool :=
  match s with
  | EmptyString => true
  | String c s' => isascii_char c && isascii s'
  end.

(** [c in s] for a one-character [c] *)
Fixpoint contains (c : ascii) (s : string) : bool :=
  match s with
  | EmptyString => false
  | String a s' => Ascii.eqb a c || contains c s'
  end.

(** [s.startswith(p)] *)
Definition startswith (p s : string) : bool := String.prefix p s.

(** [s[n:]] for [0 <= n] *)
Fixpoint slice_from (n : nat) (s : string) : string :=
  match n, s with
  | O, _ => s
  | S _, EmptyString => EmptyString
  | S n', String _ s' => slice_from n' s'
  end.

(** [s[:n]] for [0 <= n] *)
Fixpoint slice_to (n : nat) (s : string) : string :=
  match n, s with
  | O, _ => EmptyString
  | S _, EmptyString => EmptyString
  | S n', String a s' => String a (slice_to n' s')
  end.

(** [s.partition(sep)] for a one-character separator: the text before the
    first occurrence, the separator itself, the text after it; when the
    separator does not occur, [(s, '', '')]. *)
Fixpoint partition (sep : ascii) (s : string) : string * string * string :=
  match s with
  | EmptyString => (EmptyString, EmptyString, EmptyString)
  | String a s' =>
      if Ascii.eqb a sep then (EmptyString, String sep EmptyString, s')
      else let '(h, m, t) := partition sep s' in (String a h, m, t)
  end.

(** [s.split(sep)] for a one-character separator; never the empty list. *)
Fixpoint split (sep : ascii) (s : string) : list string :=
  match s with
  | EmptyString => [EmptyString]
  | String a s' =>
      if Ascii.eqb a sep then EmptyString :: split sep s'
      else match split sep s' with
           | h :: t => String a h :: t
           | [] => [String a EmptyString]
           end
  end.

(** [s.split(sep, 1)] for an [s] that contains [sep], as the pair the
    two-element list unpacks to. *)
Definition split1 (sep : ascii) (s : string) : string * string :=
  let '(h, _, t) := partition sep s in (h, t).

(** [sep.join(l)] *)
Fixpoint join (sep : string) (l : list string) : string :=
  match l with
  | [] => EmptyString
  | [x] => x
  | x :: l' => x ++ sep ++ join sep l'
  end.

(** [s.find(c)]: the index of the first occurrence, [-1] when there is none *)
Fixpoint find (c : ascii) (s : string) : Z :=
  match s with
  | EmptyString => (-1)%Z
  | String a s' =>
      if Ascii.eqb a c then 0%Z
      else let i := find c s' in if (i <? 0)%Z then (-1)%Z else (i + 1)%Z
  end.

(** [s.find(c, start)] for [0 <= start] *)
Definition find_from (c : ascii) (s : string) (start : nat) : Z :=
  if (String.length s <? start)%nat then (-1)%Z
  else let i := find c (slice_from start s) in
       if (i <? 0)%Z then (-1)%Z else (i + Z.of_nat start)%Z.

(** [s.rfind(c)] *)
Fixpoint rfind (c : ascii) (s : string) : Z :=
  match s with
  | EmptyString => (-1)%Z
  | String a s' =>
      let i := rfind c s' in
      if (0 <=? i)%Z then (i + 1)%Z
      else if Ascii.eqb a c then 0%Z else (-1)%Z
  end.

(** [s.replace(c, "")] *)
Fixpoint remove_char (c : ascii) (s : string) : string :=
  match s with
  | EmptyString => EmptyString
  | String a s' =>
      if Ascii.eqb a c then remove_char c s' else String a (remove_char c s')
  end.

(** [c.lower()] on an ASCII character *)
Definition lower_char (c : ascii) : ascii :=
  let n := ord c in
  if ((65 <=? n) && (n <=? 90))%Z then ascii_of_N (Z.to_N (n + 32)) else c.

(** [s.lower()] on an ASCII string *)
Fixpoint lower (s : string) : string :=
  match s with
  | EmptyString => EmptyString
  | String a s' => String (lower_char a) (lower s')
  end.

End PyStr.

(* ================================================================== *)
(** ** Python [dict] with string keys

    A [dict] keeps its keys in the order of their first insertion; assigning
    to a key that is present replaces the value in place. *)

Module PyDict.

Definition dict : Type := list (string * string).

(** [d[k] = v] *)
Fixpoint set (k v : string) (d : dict) : dict :=
  match d with
  | [] => [(k, v)]
  | (k', v') :: d' =>
      if String.eqb k' k then (k', v) :: d' else (k', v') :: set k v d'
  end.

(** [d.get(k)] *)
Fixpoint get (k : string) (d : dict) : option string :=
  match d with
  | [] => None
  | (k', v') :: d' => if String.eqb k' k then Some v' else get k d'
  end.

(** [list(d.keys())] *)
Definition keys (d : dict) : list string := map fst d.

End PyDict.

(* ================================================================== *)
(** ** [base64.b64decode] with [validate=False] *)

Module Base64.

Import PyStr.

Definition byte_of_Z (z : Z) : byte :=
  match Byte.of_N (Z.to_N (z mod 256)) with
  | Some b => b
  | None => x00
  end.

(** [table_a2b_base64]: the 6-bit value of an alphabet character; [None]
    stands for the entries the C table marks invalid ([this_ch >= 64]). *)
Definition table_a2b_base64 (c : ascii) : option Z :=
  let n := ord c in
  if ((65 <=? n) && (n <=? 90))%Z then Some (n - 65)%Z
  else if ((97 <=? n) && (n <=? 122))%Z then Some (n - 71)%Z
  else if ((48 <=? n) && (n <=? 57))%Z then Some (n + 4)%Z
  else if (n =? 43)%Z then Some 62%Z
  else if (n =? 47)%Z then Some 63%Z
  else None.

Definition BASE64_PAD : ascii := "="%char.

(** The loop of [binascii.a2b_base64] in non-strict mode.  [quad_pos] is the
    position inside the current group of four characters, [leftchar] the
    bits left over from the previous character, [pads] the number of [=]
    seen since the last alphabet character.  The bytes are produced in
    order; [None] is the [binascii.Error] raised after the loop when a group
    is left incomplete. *)
Fixpoint a2b_loop (s : string) (quad_pos : nat) (leftchar : Z) (pads : nat)
  : option (list byte) :=
  match s with
  | EmptyString => if (quad_pos =? 0)%nat then Some [] else None
  | String this_ch s' =>
      if Ascii.eqb this_ch BASE64_PAD then
        if (2 <=? quad_pos)%nat then
          if (4 <=? quad_pos + S pads)%nat then Some []
          else a2b_loop s' quad_pos leftchar (S pads)
        else a2b_loop s' quad_pos leftchar pads
      else
        match table_a2b_base64 this_ch with
        | None => a2b_loop s' quad_pos leftchar pads
        | Some v =>
            match quad_pos with
            | 0%nat => a2b_loop s' 1 v 0
            | 1%nat =>
                option_map
                  (cons (byte_of_Z (Z.lor (Z.shiftl leftchar 2) (Z.shiftr v 4))))
                  (a2b_loop s' 2 (Z.land v 15) 0)
            | 2%nat =>
                option_map
                  (cons (byte_of_Z (Z.lor (Z.shiftl leftchar 4) (Z.shiftr v 2))))
                  (a2b_loop s' 3 (Z.land v 3) 0)
            | _ =>
                option_map
                  (cons (byte_of_Z (Z.lor (Z.shiftl leftchar 6) v)))
                  (a2b_loop s' 0 0 0)
            end
        end
  end.

Definition a2b_base64 (s : string) : option (list byte) := a2b_loop s 0 0 0.

(** [base64.b64decode(s)] for a [str] argument: [s.encode('ascii')] raises
    [ValueError] on a non-ASCII character, then [binascii.a2b_base64]. *)
Definition b64decode (s : string) : result (list byte) :=
  if isascii s then
    match a2b_base64 s with
    | Some bs => Ok bs
    | None => Err InvalidBase64
    end
  else Err InvalidBase64.

End Base64.

(* ================================================================== *)
(** ** [urllib.parse.unquote_to_bytes] *)

Module Unquote.

Import PyStr.

Definition hex_value (c : ascii) : option Z :=
  let n := ord c in
  if ((48 <=? n) && (n <=? 57))%Z then Some (n - 48)%Z
  else if ((65 <=? n) && (n <=? 70))%Z then Some (n - 55)%Z
  else if ((97 <=? n) && (n <=? 102))%Z then Some (n - 87)%Z
  else None.

(** [_hextobyte.get(item[:2])]: defined on exactly two hexadecimal digits *)
Definition hextobyte (two : string) : option byte :=
  match two with
  | String a (String b EmptyString) =>
      match hex_value a, hex_value b with
      | Some h, Some l => Some (Base64.byte_of_Z (16 * h + l))
      | _, _ => None
      end
  | _ => None
  end.

(** One iteration of [for item in bits[1:]] *)
Definition unquote_item (item : string) : list byte :=
  match hextobyte (slice_to 2 item) with
  | Some b => b :: list_byte_of_string (slice_from 2 item)
  | None => list_byte_of_string (String "%" item)
  end.

Definition unquote_to_bytes (s : string) : list byte :=
  if String.eqb s "" then []
  else
    match split "%" s with
    | [] => []
    | [_] => list_byte_of_string s
    | bit0 :: bits =>
        (list_byte_of_string bit0 ++ List.concat (map unquote_item bits))%list
    end.

End Unquote.

(* ================================================================== *)
(** ** [parse_data_uri] *)

Module DataURI.

Import PyStr.

(** Lines 55-59: the trailing [base64] flag. *)
Definition pop_base64_flag (parts : list string) : list string * bool :=
  match parts with
  | [] => (parts, false)
  | _ :: _ =>
      if String.eqb (List.last parts "") "base64"
      then (List.removelast parts, true)
      else (parts, false)
  end.

(** Lines 61-64: the leading MIME type. *)
Definition pop_mime_type (parts : list string) : option string * list string :=
  match parts with
  | [] => (None, parts)
  | p0 :: rest =>
      if (0 <? String.length p0)%nat then (Some p0, rest) else (None, parts)
  end.

(** Lines 67-73: the body of the loop over the remaining parts. *)
Definition add_attribute (attributes : PyDict.dict) (part : string)
  : PyDict.dict :=
  if contains "=" part then
    let '(key, value) := split1 "=" part in PyDict.set key value attributes
  else if (0 <? String.length part)%nat then PyDict.set part "" attributes
  else attributes.

(** Lines 66-73. *)
Definition collect_attributes (parts : list string) : PyDict.dict :=
  fold_left add_attribute parts [].

(** Line 76. *)
Definition decode_content (is_base64 : bool) (data : string)
  : result (list byte) :=
  if is_base64 then Base64.b64decode data
  else Ok (Unquote.unquote_to_bytes data).

Definition parse_data_uri (uri : string)
  : result (option string * PyDict.dict * list byte) :=
  if negb (startswith "data:" uri) then Err NotADataURI
  else
    let '(header, sep, data) := partition "," uri in
    if String.eqb sep "" then Err MalformedDataURI
    else
      let meta := slice_from 5 header in
      let parts := split ";" meta in
      let '(parts, is_base64) := pop_base64_flag parts in
      let '(mime_type, parts) := pop_mime_type parts in
      let attributes := collect_attributes parts in
      content <- decode_content is_base64 data ;;
      Ok (mime_type, attributes, content).

End DataURI.

(* ================================================================== *)
(** ** What the library reads from outside the program *)

Record platform : Type := {
  (** [os.getcwd()] *)
  getcwd : string;
  (** [urllib.parse._check_bracketed_host(hostname)] returns without
      raising (a regular expression and the [ipaddress] parser decide) *)
  bracketed_host_ok : string -> bool;
  (** [unicodedata.normalize('NFKC', s)] *)
  nfkc : string -> string
}.

(* ================================================================== *)
(** ** [urllib.parse.urlparse] for a [str] argument *)

Module UrlParse.

Import PyStr.

Record ParseResult : Type := {
  scheme : string;
  netloc : string;
  path : string;
  params : string;
  query : string;
  fragment : string
}.

(** Membership in [_WHATWG_C0_CONTROL_OR_SPACE] *)
Definition is_c0_control_or_space (c : ascii) : bool := (ord c <=? 32)%Z.

(** [url.lstrip(_WHATWG_C0_CONTROL_OR_SPACE)] *)
Fixpoint lstrip_c0 (url : string) : string :=
  match url with
  | EmptyString => EmptyString
  | String a url' => if is_c0_control_or_space a then lstrip_c0 url' else url
  end.

(** [for b in _UNSAFE_URL_BYTES_TO_REMOVE: url = url.replace(b, "")] *)
Definition remove_unsafe (url : string) : string :=
  remove_char "010" (remove_char "013" (remove_char "009" url)).

Definition is_ascii_alpha (c : ascii) : bool :=
  let n := ord c in
  (((65 <=? n) && (n <=? 90)) || ((97 <=? n) && (n <=? 122)))%Z.

Definition is_ascii_digit (c : ascii) : bool :=
  let n := ord c in ((48 <=? n) && (n <=? 57))%Z.

(** [c in scheme_chars] *)
Definition in_scheme_chars (c : ascii) : bool :=
  is_ascii_alpha c || is_ascii_digit c
  || Ascii.eqb c "+" || Ascii.eqb c "-" || Ascii.eqb c ".".

Fixpoint all_scheme_chars (s : string) : bool :=
  match s with
  | EmptyString => true
  | String a s' => in_scheme_chars a && all_scheme_chars s'
  end.

(** [url[0].isascii() and url[0].isalpha()] *)
Definition first_is_alpha (url : string) : bool :=
  match url with
  | EmptyString => false
  | String a _ => is_ascii_alpha a
  end.

(** The scheme of [urlsplit]: the text before the first [:] when it starts
    with a letter and consists of scheme characters, lowercased; otherwise
    the default scheme [''] and the url unchanged. *)
Definition split_scheme (url : string) : string * string :=
  let i := find ":" url in
  if (0 <? i)%Z && first_is_alpha url
     && all_scheme_chars (slice_to (Z.to_nat i) url)
  then (lower (slice_to (Z.to_nat i) url), slice_from (Z.to_nat i + 1) url)
  else (EmptyString, url).

(** [_splitnetloc(url, start)] *)
Definition splitnetloc (url : string) (start : nat) : string * string :=
  let delim :=
    fold_left
      (fun delim c =>
         let wdelim := find_from c url start in
         if (0 <=? wdelim)%Z then Z.min delim wdelim else delim)
      ["/"%char; "?"%char; "#"%char]
      (Z.of_nat (String.length url)) in
  (slice_to (Z.to_nat delim - start) (slice_from start url),
   slice_from (Z.to_nat delim) url).

(** [s.rpartition(c)[2]]: the text after the last [c], all of [s] when [c]
    does not occur *)
Fixpoint after_last (c : ascii) (s : string) : string :=
  match s with
  | EmptyString => EmptyString
  | String a s' =>
      if contains c s' then after_last c s'
      else if Ascii.eqb a c then s' else s
  end.

(** [_check_bracketed_netloc(netloc)] returns without raising *)
Definition check_bracketed_netloc (env : platform) (netloc : string) : bool :=
  let hostname_and_port := after_last "@" netloc in
  let '(before_bracket, have_open_br, bracketed) :=
    partition "[" hostname_and_port in
  if negb (String.eqb have_open_br "") then
    if negb (String.eqb before_bracket "") then false
    else
      let '(hostname, _, port) := partition "]" bracketed in
      if negb (String.eqb port "") && negb (startswith ":" port) then false
      else bracketed_host_ok env hostname
  else
    let '(hostname, _, _) := partition ":" hostname_and_port in
    bracketed_host_ok env hostname.

(** [_checknetloc(netloc)] returns without raising *)
Definition checknetloc (env : platform) (netloc : string) : bool :=
  if String.eqb netloc "" || isascii netloc then true
  else
    let n := remove_char "?" (remove_char "#" (remove_char ":"
               (remove_char "@" netloc))) in
    let netloc2 := nfkc env n in
    if String.eqb n netloc2 then true
    else negb (existsb (fun c => contains c netloc2)
                 ["/"%char; "?"%char; "#"%char; "@"%char; ":"%char]).

Definition urlsplit (env : platform) (url : string)
  : result (string * string * string * string * string) :=
  let url := remove_unsafe (lstrip_c0 url) in
  let '(scheme, url) := split_scheme url in
  '(netloc, url) <-
     (if String.eqb (slice_to 2 url) "//" then
        let '(netloc, url) := splitnetloc url 2 in
        if (contains "[" netloc && negb (contains "]" netloc))
           || (contains "]" netloc && negb (contains "[" netloc))
        then Err InvalidURL
        else if contains "[" netloc && contains "]" netloc
                && negb (check_bracketed_netloc env netloc)
        then Err InvalidURL
        else Ok (netloc, url)
      else Ok (EmptyString, url)) ;;
  let '(url, fragment) :=
    if contains "#" url then split1 "#" url else (url, EmptyString) in
  let '(url, query) :=
    if contains "?" url then split1 "?" url else (url, EmptyString) in
  if checknetloc env netloc then Ok (scheme, netloc, url, query, fragment)
  else Err InvalidURL.

Definition uses_params : list string :=
  [""; "ftp"; "hdl"; "prospero"; "http"; "imap"; "https"; "shttp"; "rtsp";
   "rtspu"; "sip"; "sips"; "mms"; "sftp"; "tel"].

(** [_splitparams(url)] *)
Definition splitparams (url : string) : string * string :=
  let i :=
    if contains "/" url
    then find_from ";" url (Z.to_nat (rfind "/" url))
    else find ";" url in
  if contains "/" url && (i <? 0)%Z then (url, EmptyString)
  else (slice_to (Z.to_nat i) url, slice_from (Z.to_nat i + 1) url).

Definition urlparse (env : platform) (url : string) : result ParseResult :=
  '(scheme, netloc, url, query, fragment) <- urlsplit env url ;;
  let '(url, params) :=
    if existsb (String.eqb scheme) uses_params && contains ";" url
    then splitparams url
    else (url, EmptyString) in
  Ok {| scheme := scheme; netloc := netloc; path := url;
        params := params; query := query; fragment := fragment |}.

End UrlParse.

(* ================================================================== *)
(** ** [urllib.parse.unquote] and [urllib.request.url2pathname] *)

Module UnquoteStr.

Import PyStr.

Definition bz (b : byte) : Z := Z.of_N (Byte.to_N b).

Definition is_continuation (b : byte) : bool :=
  ((128 <=? bz b) && (bz b <=? 191))%Z.

(** The second byte of a three-byte sequence: [E0] needs [A0..BF], [ED]
    needs [80..9F]. *)
Definition second_ok3 (b0 b1 : byte) : bool :=
  is_continuation b1
  && negb (if (bz b1 <? 160)%Z then (bz b0 =? 224)%Z else (bz b0 =? 237)%Z).

(** The second byte of a four-byte sequence: [F0] needs [90..BF], [F4]
    needs [80..8F]. *)
Definition second_ok4 (b0 b1 : byte) : bool :=
  is_continuation b1
  && negb (if (bz b1 <? 144)%Z then (bz b0 =? 240)%Z else (bz b0 =? 244)%Z).

(** U+FFFD in UTF-8 *)
Definition REPLACEMENT : string := String "239" (String "191" (String "189" "")).

Definition chr (b : byte) : string := String (ascii_of_byte b) EmptyString.

(** [bs.decode('utf-8', 'replace')], the text again represented by its
    UTF-8 bytes: a well-formed sequence is kept, every maximal ill-formed
    prefix of a sequence is replaced by U+FFFD. *)
Fixpoint decode_utf8_replace (bs : list byte) : string :=
  match bs with
  | [] => EmptyString
  | b0 :: r0 =>
      if (bz b0 <? 128)%Z then chr b0 ++ decode_utf8_replace r0
      else if ((bz b0 <? 194) || (244 <? bz b0))%Z then
        REPLACEMENT ++ decode_utf8_replace r0
      else if (bz b0 <? 224)%Z then
        match r0 with
        | [] => REPLACEMENT
        | b1 :: r1 =>
            if is_continuation b1
            then chr b0 ++ chr b1 ++ decode_utf8_replace r1
            else REPLACEMENT ++ decode_utf8_replace r0
        end
      else if (bz b0 <? 240)%Z then
        match r0 with
        | [] => REPLACEMENT
        | b1 :: r1 =>
            if second_ok3 b0 b1 then
              match r1 with
              | [] => REPLACEMENT
              | b2 :: r2 =>
                  if is_continuation b2
                  then chr b0 ++ chr b1 ++ chr b2 ++ decode_utf8_replace r2
                  else REPLACEMENT ++ decode_utf8_replace r1
              end
            else REPLACEMENT ++ decode_utf8_replace r0
        end
      else
        match r0 with
        | [] => REPLACEMENT
        | b1 :: r1 =>
            if second_ok4 b0 b1 then
              match r1 with
              | [] => REPLACEMENT
              | b2 :: r2 =>
                  if is_continuation b2 then
                    match r2 with
                    | [] => REPLACEMENT
                    | b3 :: r3 =>
                        if is_continuation b3
                        then chr b0 ++ chr b1 ++ chr b2 ++ chr b3
                             ++ decode_utf8_replace r3
                        else REPLACEMENT ++ decode_utf8_replace r2
                    end
                  else REPLACEMENT ++ decode_utf8_replace r1
              end
            else REPLACEMENT ++ decode_utf8_replace r0
        end
  end.

(** The pieces of [_asciire.split(string)]: the maximal runs of ASCII and of
    non-ASCII characters, in order, each tagged with its kind. *)
Fixpoint runs (s : string) : list (bool * string) :=
  match s with
  | EmptyString => []
  | String a s' =>
      let k := isascii_char a in
      match runs s' with
      | (k', r) :: rest =>
          if Bool.eqb k k' then (k, String a r) :: rest
          else (k, String a EmptyString) :: (k', r) :: rest
      | [] => [(k, String a EmptyString)]
      end
  end.

(** [unquote(string)]: the ASCII runs are percent-decoded and read as UTF-8
    with replacement, the other runs are kept. *)
Definition unquote (s : string) : string :=
  if negb (contains "%" s) then s
  else
    String.concat ""
      (map (fun kr : bool * string =>
              if fst kr
              then decode_utf8_replace (Unquote.unquote_to_bytes (snd kr))
              else snd kr)
           (runs s)).

(** POSIX [url2pathname] *)
Definition url2pathname (pathname : string) : string := unquote pathname.

End UnquoteStr.

(* ================================================================== *)
(** ** [posixpath] *)

Module PosixPath.

Import PyStr.

Definition isabs (s : string) : bool := startswith "/" s.

(** [join(a, b)] *)
Definition join_path (a b : string) : string :=
  if startswith "/" b then b
  else if String.eqb a "" || String.eqb (slice_from (String.length a - 1) a) "/"
  then a ++ b
  else a ++ "/" ++ b.

(** [initial_slashes] of [normpath]: 0, 1 or 2 *)
Definition initial_slashes (p : string) : nat :=
  if startswith "/" p then
    if startswith "//" p && negb (startswith "///" p) then 2 else 1
  else 0.

(** The body of [for comp in comps] *)
Definition norm_step (initial : nat) (new_comps : list string) (comp : string)
  : list string :=
  if String.eqb comp "" || String.eqb comp "." then new_comps
  else if negb (String.eqb comp "..")
          || ((initial =? 0)%nat
              && match new_comps with [] => true | _ => false end)
          || (match new_comps with [] => false | _ => true end
              && String.eqb (List.last new_comps "") "..")
  then (new_comps ++ [comp])%list
  else match new_comps with
       | [] => new_comps
       | _ => List.removelast new_comps
       end.

Fixpoint repeat_sep (n : nat) : string :=
  match n with
  | O => EmptyString
  | S n' => String "/" (repeat_sep n')
  end.

Definition normpath (p : string) : string :=
  if String.eqb p "" then "."
  else
    let initial := initial_slashes p in
    let comps := fold_left (norm_step initial) (split "/" p) [] in
    let p' := repeat_sep initial ++ join "/" comps in
    if String.eqb p' "" then "." else p'.

Definition abspath (env : platform) (p : string) : string :=
  let p := if negb (isabs p) then join_path (getcwd env) p else p in
  normpath p.

End PosixPath.

(* ================================================================== *)
(** ** [file_uri_to_path] *)

Module FileURI.

Import PyStr UrlParse.

Definition file_uri_to_path (env : platform) (file_uri : string)
  : result (option string * string) :=
  parsed <- urlparse env file_uri ;;
  if negb (String.eqb (scheme parsed) "file") then Err InvalidScheme
  else
    let netloc :=
      if negb (String.eqb (netloc parsed) "") then Some (netloc parsed)
      else None in
    let path :=
      PosixPath.abspath env (UnquoteStr.url2pathname (path parsed)) in
    Ok (netloc, path).

End FileURI.

(* ================================================================== *)
(** * Definitions used to state the properties *)

Import PyStr DataURI FileURI.

(** What lines 52-78 compute from the header text after [data:] and from
    the payload. *)
Definition decode_sections (meta data : string)
  : result (option string * PyDict.dict * list byte) :=
  let '(parts, is_base64) := pop_base64_flag (split ";" meta) in
  let '(mime_type, parts) := pop_mime_type parts in
  content <- decode_content is_base64 data ;;
  Ok (mime_type, collect_attributes parts, content).

(** The header segments of a header text: its pieces between [;]. *)
Definition segments (meta : string) : list string := split ";" meta.

(** The last header segment is exactly the token [base64]. *)
Definition flag_segment (meta : string) : bool :=
  String.eqb (List.last (segments meta) "") "base64".

(** The segments that remain once a trailing flag has been taken off. *)
Definition remaining_segments (meta : string) : list string :=
  if flag_segment meta then List.removelast (segments meta) else segments meta.

(** The flag of an input that starts with [data:] and contains a comma. *)
Definition base64_flag (uri : string) : bool :=
  flag_segment (slice_from 5 (fst (fst (partition "," uri)))).



(** A segment split at its first [=]: the text before it and the text
    after it. *)
Fixpoint key_of (part : string) : string :=
  match part with
  | EmptyString => EmptyString
  | String a part' =>
      if Ascii.eqb a "=" then EmptyString else String a (key_of part')
  end.

Fixpoint value_of (part : string) : string :=
  match part with
  | EmptyString => EmptyString
  | String a part' => if Ascii.eqb a "=" then part' else value_of part'
  end.

(** The attribute a header segment declares, if any. *)
Definition segment_entry (part : string) : option (string * string) :=
  if contains "=" part then Some (key_of part, value_of part)
  else if String.eqb part "" then None
  else Some (part, "").

(** The attributes declared by a list of segments, in declaration order. *)
Fixpoint entries (parts : list string) : list (string * string) :=
  match parts with
  | [] => []
  | part :: parts' =>
      match segment_entry part with
      | Some e => e :: entries parts'
      | None => entries parts'
      end
  end.

(** The value of the last declaration of [k]. *)
Fixpoint last_value (k : string) (es : list (string * string)) : option string :=
  match es with
  | [] => None
  | (k', v) :: es' =>
      match last_value k es' with
      | Some v' => Some v'
      | None => if String.eqb k' k then Some v else None
      end
  end.

(** The distinct keys in the order of their first declaration. *)
Fixpoint first_occurrences (ks : list string) : list string :=
  match ks with
  | [] => []
  | k :: ks' =>
      k :: filter (fun k' => negb (String.eqb k' k)) (first_occurrences ks')
  end.

(** One declaration written into a mapping. *)
Definition set_entry (d : PyDict.dict) (e : string * string) : PyDict.dict :=
  PyDict.set (fst e) (snd e) d.

(** [k in ks] *)
Definition mem (k : string) (ks : list string) : bool :=
  existsb (String.eqb k) ks.

(** *** File URIs *)

(** A platform to evaluate examples on. *)
Definition sample_platform : platform :=
  {| getcwd := "/home/user";
     bracketed_host_ok := fun _ => true;
     nfkc := fun s => s |}.

(** The input as the URL parser reads it: leading control characters and
    spaces stripped, tabs and line ends removed. *)
Definition cleaned (uri : string) : string :=
  UrlParse.remove_unsafe (UrlParse.lstrip_c0 uri).

(** The parsed scheme of an input, and the text after its scheme. *)
Definition parsed_scheme (uri : string) : string :=
  fst (UrlParse.split_scheme (cleaned uri)).

Definition after_scheme (uri : string) : string :=
  snd (UrlParse.split_scheme (cleaned uri)).

(** A delimiter that ends the authority. *)
Definition is_authority_end (c : ascii) : bool :=
  Ascii.eqb c "/" || Ascii.eqb c "?" || Ascii.eqb c "#".

(** The text up to the first authority delimiter, and the text from it on. *)
Fixpoint authority_text (s : string) : string :=
  match s with
  | EmptyString => EmptyString
  | String a s' =>
      if is_authority_end a then EmptyString else String a (authority_text s')
  end.

Fixpoint after_authority (s : string) : string :=
  match s with
  | EmptyString => EmptyString
  | String a s' => if is_authority_end a then s else after_authority s'
  end.

(** The authority component of the generic URI grammar: present when the
    scheme-specific part starts with [//], and then the text up to the next
    [/], [?] or [#]. *)
Definition authority (rest : string) : option string :=
  if startswith "//" rest then Some (authority_text (slice_from 2 rest))
  else None.

(** The earliest delimiter position kept by one round of [_splitnetloc]
    over a text that follows [//]: [x] is the position of the delimiter in
    that text, [-1] when it does not occur. *)
Definition earliest (delim x : Z) : Z :=
  let wdelim := if (x <? 0)%Z then (-1)%Z else (x + 2)%Z in
  if (0 <=? wdelim)%Z then Z.min delim wdelim else delim.

(** The authority of an input; the empty text when there is none. *)
Definition parsed_netloc (uri : string) : string :=
  match authority (after_scheme uri) with
  | Some a => a
  | None => EmptyString
  end.

(** Lexical collapse of path components on a stack (kept in reverse): empty
    and [.] components are dropped, [..] removes the component before it and
    is dropped at the root. *)
Fixpoint collapse_onto (stack : list string) (comps : list string)
  : list string :=
  match comps with
  | [] => rev stack
  | comp :: comps' =>
      if String.eqb comp "" || String.eqb comp "." then collapse_onto stack comps'
      else if String.eqb comp ".." then collapse_onto (tl stack) comps'
      else collapse_onto (comp :: stack) comps'
  end.

Definition collapse (comps : list string) : list string :=
  collapse_onto [] comps.

(** A component a collapsed path may contain. *)
Definition plain_component (comp : string) : Prop :=
  comp <> "" /\ comp <> "." /\ comp <> "..".

(** *** Encoders the decoders are compared with *)

(** Every byte value. *)
Definition all_bytes : list byte :=
  map (fun n => Base64.byte_of_Z (Z.of_nat n)) (seq 0 256).

(** The upper-case hexadecimal digit of a value below 16. *)
Definition hex_digit (n : Z) : ascii :=
  if (n <? 10)%Z then ascii_of_N (Z.to_N (48 + n))
  else ascii_of_N (Z.to_N (55 + n)).

(** [%XX] for one byte. *)
Definition percent_escape (b : byte) : string :=
  String "%"
    (String (hex_digit (UnquoteStr.bz b / 16))
       (String (hex_digit (UnquoteStr.bz b mod 16)) "")).

(** The unreserved characters of RFC 3986: letters, digits, [-], [.], [_]
    and [~]. *)
Definition is_unreserved (b : byte) : bool :=
  let n := UnquoteStr.bz b in
  (((65 <=? n) && (n <=? 90)) || ((97 <=? n) && (n <=? 122))
   || ((48 <=? n) && (n <=? 57))
   || (n =? 45) || (n =? 46) || (n =? 95) || (n =? 126))%Z.

(** Percent-encoding of a byte sequence: unreserved bytes stand for
    themselves, every other byte is escaped. *)
Fixpoint percent_encode (bs : list byte) : string :=
  match bs with
  | [] => EmptyString
  | b :: bs' =>
      (if is_unreserved b then String (ascii_of_byte b) EmptyString
       else percent_escape b) ++ percent_encode bs'
  end.

(** The character of a 6-bit value in the base64 alphabet of RFC 4648. *)
Definition b64_char (n : Z) : ascii :=
  if (n <? 26)%Z then ascii_of_N (Z.to_N (65 + n))
  else if (n <? 52)%Z then ascii_of_N (Z.to_N (71 + n))
  else if (n <? 62)%Z then ascii_of_N (Z.to_N (n - 4))
  else if (n =? 62)%Z then "+"%char
  else "/"%char.

(** The four 6-bit values of a group of three bytes. *)
Definition sextet0 (a : byte) : Z := Z.shiftr (UnquoteStr.bz a) 2.
Definition sextet1 (a b : byte) : Z :=
  Z.lor (Z.shiftl (Z.land (UnquoteStr.bz a) 3) 4) (Z.shiftr (UnquoteStr.bz b) 4).
Definition sextet2 (b c : byte) : Z :=
  Z.lor (Z.shiftl (Z.land (UnquoteStr.bz b) 15) 2) (Z.shiftr (UnquoteStr.bz c) 6).
Definition sextet3 (c : byte) : Z := Z.land (UnquoteStr.bz c) 63.

(** Standard base64 encoding with padding (RFC 4648, section 4). *)
Fixpoint b64encode (bs : list byte) : string :=
  match bs with
  | [] => EmptyString
  | [a] =>
      String (b64_char (sextet0 a))
        (String (b64_char (sextet1 a x00)) "==")
  | [a; b] =>
      String (b64_char (sextet0 a))
        (String (b64_char (sextet1 a b))
           (String (b64_char (sextet2 b x00)) "="))
  | a :: b :: c :: rest =>
      String (b64_char (sextet0 a))
        (String (b64_char (sextet1 a b))
           (String (b64_char (sextet2 b c))
              (String (b64_char (sextet3 c)) (b64encode rest))))
  end.

(** Percent-decoding by a scan from left to right: a [%] followed by two
    hexadecimal digits gives the byte they denote, every other character
    gives its own byte. *)
Fixpoint percent_scan (s : string) : list byte :=
  match s with
  | EmptyString => []
  | String c s' =>
      if Ascii.eqb c "%" then
        match s' with
        | String h (String l s'') =>
            match Unquote.hextobyte (String h (String l EmptyString)) with
            | Some b => b :: percent_scan s''
            | None => byte_of_ascii c :: percent_scan s'
            end
        | _ => byte_of_ascii c :: percent_scan s'
        end
      else byte_of_ascii c :: percent_scan s'
  end.

(** An ASCII character of the base64 alphabet that stands for the value
    [v]. *)
Definition stands_for (ch : ascii) (v : Z) : bool :=
  match Base64.table_a2b_base64 ch with
  | Some v' => (v' =? v)%Z
  | None => false
  end
  && negb (Ascii.eqb ch "=") && isascii_char ch.

(** Every character of a text is a C0 control character or a space. *)
Fixpoint all_c0_or_space (s : string) : bool :=
  match s with
  | EmptyString => true
  | String a s' => UrlParse.is_c0_control_or_space a && all_c0_or_space s'
  end.

(** A tab, a carriage return or a line feed. *)
Definition is_unsafe_char (c : ascii) : bool :=
  Ascii.eqb c "009" || Ascii.eqb c "013" || Ascii.eqb c "010".

(** The URL parser accepts an authority: its brackets are balanced, a
    bracketed host passes the host check, and the NFKC check passes. *)
Definition netloc_accepted (env : platform) (a : string) : bool :=
  negb ((contains "[" a && negb (contains "]" a))
        || (contains "]" a && negb (contains "[" a)))
  && negb (contains "[" a && contains "]" a
           && negb (UrlParse.check_bracketed_netloc env a))
  && UrlParse.checknetloc env a.

(** The text up to the first [?] or [#]. *)
Fixpoint until_query_or_fragment (s : string) : string :=
  match s with
  | EmptyString => EmptyString
  | String a s' =>
      if Ascii.eqb a "?" || Ascii.eqb a "#" then EmptyString
      else String a (until_query_or_fragment s')
  end.

(** The path component of the generic URI grammar: what follows the
    authority, or the whole scheme-specific part when there is no
    authority, up to the first [?] or [#]. *)
Definition path_text (rest : string) : string :=
  until_query_or_fragment
    (match authority rest with
     | Some _ => after_authority (slice_from 2 rest)
     | None => rest
     end).

(** The same platform with another working directory. *)
Definition with_cwd (env : platform) (cwd : string) : platform :=
  {| getcwd := cwd;
     bracketed_host_ok := bracketed_host_ok env;
     nfkc := nfkc env |}.

(** The character that starts a query or a fragment. *)
Definition is_query_or_fragment_mark (c : ascii) : bool :=
  Ascii.eqb c "?" || Ascii.eqb c "#".

(** A path component without [/]. *)
Definition slash_free (comp : string) : Prop := contains "/" comp = false.

(* ================================================================== *)
(** * Properties *)

(** ** Facts about the string operations *)

Section StringFacts.

Variable c : ascii.


Lemma partition_first (h t : string) :
  contains c h = false ->
  partition c (h ++ String c t) = (h, String c "", t).
Proof.
  induction h as [|x h IH]; simpl; intros H.
  - now rewrite Ascii.eqb_refl.
  - apply orb_false_elim in H as [Hx Hh].
    now rewrite Hx, (IH Hh).
Qed.

Lemma partition_absent (s : string) :
  contains c s = false -> partition c s = (s, "", "").
Proof.
  induction s as [|x s IH]; simpl; intros H; [reflexivity|].
  apply orb_false_elim in H as [Hx Hs].
  now rewrite Hx, (IH Hs).
Qed.

Lemma contains_first (s : string) :
  contains c s = true ->
  exists h t, s = h ++ String c t /\ contains c h = false.
Proof.
  induction s as [|x s IH]; simpl; [discriminate|].
  destruct (Ascii.eqb x c) eqn:Hx; simpl; intros H.
  - apply Ascii.eqb_eq in Hx; subst x. now exists "", s.
  - destruct (IH H) as (h & t & -> & Hh).
    exists (String x h), t. simpl. now rewrite Hx, Hh.
Qed.

Lemma split_not_nil (s : string) : split c s <> [].
Proof.
  induction s as [|x s IH]; simpl; [discriminate|].
  destruct (Ascii.eqb x c); [discriminate|].
  destruct (split c s); [contradiction | discriminate].
Qed.

Lemma split_absent (s : string) :
  contains c s = false -> split c s = [s].
Proof.
  induction s as [|x s IH]; simpl; intros H; [reflexivity|].
  apply orb_false_elim in H as [Hx Hs].
  now rewrite Hx, (IH Hs).
Qed.

Lemma split_app_prefix (a b : string) :
  exists h l, split c (a ++ String c b) = h :: (l ++ split c b)%list.
Proof.
  induction a as [|x a (h & l & E)]; simpl.
  - rewrite Ascii.eqb_refl. now exists "", [].
  - rewrite E. destruct (Ascii.eqb x c).
    + now exists "", (h :: l).
    + now exists (String x h), l.
Qed.

Lemma last_app_r {A : Type} (l m : list A) (d : A) :
  m <> [] -> List.last (l ++ m)%list d = List.last m d.
Proof.
  intros Hm. induction l as [|x l IH]; simpl; [reflexivity|].
  rewrite IH. destruct (l ++ m)%list eqn:E; [|reflexivity].
  apply app_eq_nil in E as [_ ->]. contradiction.
Qed.

Lemma last_split_app (a b d : string) :
  List.last (split c (a ++ String c b)) d = List.last (split c b) d.
Proof.
  destruct (split_app_prefix a b) as (h & l & ->).
  change (h :: (l ++ split c b)%list) with ((h :: l) ++ split c b)%list.
  apply last_app_r, split_not_nil.
Qed.

End StringFacts.

Lemma startswith_app (p s : string) : startswith p (p ++ s) = true.
Proof.
  unfold startswith. induction p as [|x p IH]; simpl.
  - now destruct s.
  - destruct (ascii_dec x x); [assumption | contradiction].
Qed.

Lemma startswith_inv (p s : string) :
  startswith p s = true -> s = p ++ slice_from (String.length p) s.
Proof.
  unfold startswith. revert s.
  induction p as [|x p IH]; intros s; [reflexivity|].
  destruct s as [|y s]; simpl; [discriminate|].
  destruct (ascii_dec x y) as [->|]; [|discriminate].
  intros H. f_equal. now apply IH.
Qed.

(** ** The data URI decoder at the first comma *)

Section DataURIFacts.

Lemma parse_data_uri_sections (meta data : string) :
  contains "," meta = false ->
  parse_data_uri ("data:" ++ meta ++ "," ++ data) = decode_sections meta data.
Proof.
  intros Hm. unfold parse_data_uri, decode_sections.
  rewrite startswith_app. simpl negb. cbv iota.
  change ("data:" ++ meta ++ "," ++ data)
    with (("data:" ++ meta) ++ String "," data).
  rewrite partition_first by (simpl; exact Hm).
  simpl String.eqb. cbv iota.
  change (slice_from 5 ("data:" ++ meta)) with meta.
  destruct (pop_base64_flag (split ";" meta)) as [parts b].
  destruct (pop_mime_type parts) as [m parts'].
  reflexivity.
Qed.

Lemma parse_data_uri_no_comma (rest : string) :
  contains "," rest = false ->
  parse_data_uri ("data:" ++ rest) = Err MalformedDataURI.
Proof.
  intros H. unfold parse_data_uri.
  rewrite startswith_app. simpl negb. cbv iota.
  rewrite partition_absent by (simpl; exact H).
  reflexivity.
Qed.

Lemma decode_content_error (b : bool) (data : string) (e : error) :
  decode_content b data = Err e -> e = InvalidBase64 /\ b = true.
Proof.
  unfold decode_content, Base64.b64decode.
  destruct b; [|discriminate].
  destruct (isascii data); [destruct (Base64.a2b_base64 data)|];
    intros H; inversion H; auto.
Qed.

Lemma decode_sections_error (meta data : string) (e : error) :
  decode_sections meta data = Err e ->
  e = InvalidBase64 /\ snd (pop_base64_flag (split ";" meta)) = true.
Proof.
  unfold decode_sections.
  destruct (pop_base64_flag (split ";" meta)) as [parts b].
  destruct (pop_mime_type parts) as [m parts'].
  destruct (decode_content b data) eqn:E; simpl; [discriminate|].
  intros H; inversion H; subst. now apply decode_content_error in E.
Qed.

End DataURIFacts.

(** ** Claims about [parse_data_uri] *)

Lemma pop_base64_flag_segments (meta : string) :
  pop_base64_flag (segments meta) = (remaining_segments meta, flag_segment meta).
Proof.
  unfold pop_base64_flag, remaining_segments, flag_segment, segments.
  destruct (split ";" meta) as [|p l] eqn:E; [now apply split_not_nil in E|].
  now destruct (String.eqb (List.last (p :: l) "") "base64").
Qed.

Lemma decode_sections_flag (meta data : string) :
  decode_sections meta data =
  let '(mime_type, parts) := pop_mime_type (remaining_segments meta) in
  content <- decode_content (flag_segment meta) data ;;
  Ok (mime_type, collect_attributes parts, content).
Proof.
  unfold decode_sections. fold (segments meta).
  now rewrite pop_base64_flag_segments.
Qed.

(** C3.  The payload of a data URI is decoded as base64 exactly when the
    last [;]-separated header segment is the literal token [base64]; the
    token is then taken off the segment list before the MIME type and the
    attributes are extracted.  Otherwise the payload is percent-decoded and
    all segments take part in the extraction; this is the case for a last
    segment [BASE64] and for a [base64] segment that is followed by another
    segment which is not the token. *)
Theorem base64_flag_last_segment (meta data : string) :
  contains "," meta = false ->
  (List.last (segments meta) "" = "base64" ->
   parse_data_uri ("data:" ++ meta ++ "," ++ data) =
   let '(mime_type, parts) := pop_mime_type (List.removelast (segments meta)) in
   content <- Base64.b64decode data ;;
   Ok (mime_type, collect_attributes parts, content))
  /\ (List.last (segments meta) "" <> "base64" ->
      parse_data_uri ("data:" ++ meta ++ "," ++ data) =
      let '(mime_type, parts) := pop_mime_type (segments meta) in
      Ok (mime_type, collect_attributes parts, Unquote.unquote_to_bytes data))
  /\ (forall pre, meta = pre ++ ";BASE64" ->
      List.last (segments meta) "" <> "base64")
  /\ (forall post, meta = "base64;" ++ post ->
      List.last (segments post) "" <> "base64" ->
      List.last (segments meta) "" <> "base64").
Proof.
  intros Hm. repeat split.
  - intros Hl. rewrite parse_data_uri_sections, decode_sections_flag by exact Hm.
    unfold remaining_segments, flag_segment. rewrite Hl. simpl String.eqb.
    cbv iota. reflexivity.
  - intros Hl. rewrite parse_data_uri_sections, decode_sections_flag by exact Hm.
    unfold remaining_segments, flag_segment.
    apply String.eqb_neq in Hl. rewrite Hl.
    destruct (pop_mime_type (segments meta)); reflexivity.
  - intros pre ->. unfold segments.
    change (pre ++ ";BASE64") with (pre ++ String ";" "BASE64").
    rewrite last_split_app. simpl. discriminate.
  - intros post -> Hp. unfold segments in *.
    change ("base64;" ++ post) with ("base64" ++ String ";" post).
    now rewrite last_split_app.
Qed.

Lemma base64_flag_last_segment_witness :
  contains "," "text/plain;BASE64" = false
  /\ parse_data_uri "data:text/plain;BASE64,Hi%20there" =
     Ok (Some "text/plain", [("BASE64", "")], list_byte_of_string "Hi there").
Proof.
  split; [reflexivity|].
  destruct (base64_flag_last_segment "text/plain;BASE64" "Hi%20there" eq_refl)
    as (_ & H & _).
  etransitivity; [apply H; vm_compute; discriminate | reflexivity].
Defined.

(** C4.  An input that begins with [data:] fails with [MalformedDataURI]
    exactly when it contains no comma.  When it contains one, the header is
    the text before the first comma and the payload is everything after it,
    further commas included. *)
Theorem split_at_first_comma (rest : string) :
  (parse_data_uri ("data:" ++ rest) = Err MalformedDataURI
   <-> contains "," ("data:" ++ rest) = false)
  /\ (forall meta data,
        rest = meta ++ "," ++ data -> contains "," meta = false ->
        parse_data_uri ("data:" ++ rest) = decode_sections meta data).
Proof.
  split.
  - split.
    + intros H. destruct (contains "," ("data:" ++ rest)) eqn:Hc; [|reflexivity].
      simpl in Hc. apply contains_first in Hc as (h & t & -> & Hh).
      change (h ++ String "," t) with (h ++ "," ++ t) in H.
      rewrite parse_data_uri_sections in H by exact Hh.
      now apply decode_sections_error in H as [? _].
    + intros H. now apply parse_data_uri_no_comma.
  - intros meta data -> Hm. now apply parse_data_uri_sections.
Qed.

Lemma split_at_first_comma_witness :
  parse_data_uri "data:text/plain,a,b,c" =
  Ok (Some "text/plain", [], list_byte_of_string "a,b,c").
Proof.
  etransitivity;
    [exact (proj2 (split_at_first_comma "text/plain,a,b,c")
              "text/plain" "a,b,c" eq_refl eq_refl)
    | reflexivity].
Defined.

(** C9.  For an input that begins with [data:] and contains a comma: when
    the base64 flag is not set the decoder returns a result, and whenever it
    fails the failure is [InvalidBase64] and the flag is set. *)
Theorem percent_decoding_total (uri : string) :
  startswith "data:" uri = true ->
  contains "," uri = true ->
  (base64_flag uri = false -> exists r, parse_data_uri uri = Ok r)
  /\ (forall e, parse_data_uri uri = Err e ->
                e = InvalidBase64 /\ base64_flag uri = true).
Proof.
  intros Hp Hc. apply startswith_inv in Hp. simpl String.length in Hp.
  set (rest := slice_from 5 uri) in *. rewrite Hp in Hc. simpl in Hc.
  apply contains_first in Hc as (meta & data & Hr & Hm).
  assert (Hu : uri = "data:" ++ meta ++ "," ++ data)
    by (rewrite Hp, Hr; reflexivity).
  assert (Hf : base64_flag uri = flag_segment meta).
  { unfold base64_flag. rewrite Hu.
    change ("data:" ++ meta ++ "," ++ data)
      with (("data:" ++ meta) ++ String "," data).
    rewrite partition_first by (simpl; exact Hm). reflexivity. }
  rewrite Hf, Hu, parse_data_uri_sections by exact Hm. split.
  - intros Hb. rewrite decode_sections_flag, Hb.
    destruct (pop_mime_type (remaining_segments meta)) as [m parts].
    simpl. eauto.
  - intros e He. apply decode_sections_error in He as [-> He].
    fold (segments meta) in He. rewrite pop_base64_flag_segments in He.
    auto.
Qed.

Lemma percent_decoding_total_witness :
  exists r, parse_data_uri "data:;charset=utf-8,Hi%20there" = Ok r.
Proof.
  exact (proj1 (percent_decoding_total "data:;charset=utf-8,Hi%20there"
                  eq_refl eq_refl) eq_refl).
Defined.

Lemma length_zero_iff (s : string) : (0 <? String.length s)%nat = false <-> s = "".
Proof.
  destruct s; simpl; split; intros H; try reflexivity; discriminate.
Qed.

(** C1, as the code has it.  Once a trailing [base64] flag has been taken
    off, the first remaining header segment is consumed as the MIME type
    exactly when it is not empty, whether or not it contains [=]; the
    attributes then come from the segments after it.  An empty first
    segment leaves the MIME type absent. *)
Theorem mime_type_first_nonempty_segment
  (meta data : string) (m : option string) (a : PyDict.dict) (c : list byte) :
  contains "," meta = false ->
  parse_data_uri ("data:" ++ meta ++ "," ++ data) = Ok (m, a, c) ->
  match remaining_segments meta with
  | [] => m = None
  | first :: others =>
      (m = Some first <-> first <> "")
      /\ (first = "" -> m = None)
      /\ a = collect_attributes others
  end.
Proof.
  intros Hm. rewrite parse_data_uri_sections, decode_sections_flag by exact Hm.
  destruct (remaining_segments meta) as [|first others]; simpl.
  - destruct (decode_content _ _); simpl; intros H; now inversion H.
  - destruct (0 <? String.length first)%nat eqn:Hl;
      destruct (decode_content _ _); simpl; intros H; inversion H; subst.
    + assert (first <> "") by (intros ->; discriminate).
      repeat split; auto. contradiction.
    + apply length_zero_iff in Hl. subst first.
      repeat split; try discriminate; try contradiction; auto.
Qed.

Lemma mime_type_first_nonempty_segment_witness :
  remaining_segments "charset=utf-8;x" = ["charset=utf-8"; "x"]
  /\ ((Some "charset=utf-8" = Some "charset=utf-8" <-> "charset=utf-8" <> "")
      /\ ("charset=utf-8" = "" -> Some "charset=utf-8" = None)
      /\ [("x", "")] = collect_attributes ["x"]).
Proof.
  split; [reflexivity|].
  exact (mime_type_first_nonempty_segment "charset=utf-8;x" "hi"
           (Some "charset=utf-8") [("x", "")] (list_byte_of_string "hi")
           eq_refl eq_refl).
Defined.

(** C1 as stated fails: the first segment [charset=utf-8] contains [=] and
    is returned as the MIME type, not as an attribute. *)
Lemma mime_type_with_equals_counterexample :
  contains "=" "charset=utf-8" = true
  /\ parse_data_uri "data:charset=utf-8,hi" =
     Ok (Some "charset=utf-8", [], list_byte_of_string "hi").
Proof. split; reflexivity. Qed.

(** *** Lenient base64 decoding *)

Lemma a2b_loop_cons (ch : ascii) (s : string) (q : nat) (l : Z) (p : nat) :
  Base64.a2b_loop (String ch s) q l p =
  if Ascii.eqb ch "=" then
    if (2 <=? q)%nat then
      if (4 <=? q + S p)%nat then Some []
      else Base64.a2b_loop s q l (S p)
    else Base64.a2b_loop s q l p
  else
    match Base64.table_a2b_base64 ch with
    | None => Base64.a2b_loop s q l p
    | Some v =>
        match q with
        | 0%nat => Base64.a2b_loop s 1 v 0
        | 1%nat =>
            option_map
              (cons (Base64.byte_of_Z (Z.lor (Z.shiftl l 2) (Z.shiftr v 4))))
              (Base64.a2b_loop s 2 (Z.land v 15) 0)
        | 2%nat =>
            option_map
              (cons (Base64.byte_of_Z (Z.lor (Z.shiftl l 4) (Z.shiftr v 2))))
              (Base64.a2b_loop s 3 (Z.land v 3) 0)
        | _ =>
            option_map
              (cons (Base64.byte_of_Z (Z.lor (Z.shiftl l 6) v)))
              (Base64.a2b_loop s 0 0 0)
        end
    end.
Proof. reflexivity. Qed.









(** *** Attributes *)

Section AttributeFacts.

Lemma partition_key_value (part : string) :
  contains "=" part = true ->
  partition "=" part = (key_of part, "=", value_of part).
Proof.
  induction part as [|x part IH]; simpl; [discriminate|].
  destruct (Ascii.eqb x "=") eqn:Hx; simpl; [reflexivity|].
  intros H. now rewrite (IH H).
Qed.

Lemma key_value_split (part : string) :
  contains "=" part = true ->
  part = key_of part ++ "=" ++ value_of part
  /\ contains "=" (key_of part) = false.
Proof.
  induction part as [|x part IH]; simpl; [discriminate|].
  destruct (Ascii.eqb x "=") eqn:Hx; simpl.
  - intros _. apply Ascii.eqb_eq in Hx. now subst x.
  - intros H. destruct (IH H) as [E K]. rewrite Hx, K. split; [|reflexivity].
    f_equal. exact E.
Qed.

Lemma add_attribute_entry (d : PyDict.dict) (part : string) :
  add_attribute d part =
  match segment_entry part with
  | Some e => set_entry d e
  | None => d
  end.
Proof.
  unfold add_attribute, segment_entry, split1.
  destruct (contains "=" part) eqn:Hc.
  - now rewrite partition_key_value.
  - destruct part; reflexivity.
Qed.

Lemma collect_entries (parts : list string) :
  forall d, fold_left add_attribute parts d = fold_left set_entry (entries parts) d.
Proof.
  induction parts as [|part parts IH]; intros d; simpl; [reflexivity|].
  rewrite add_attribute_entry.
  destruct (segment_entry part); simpl; apply IH.
Qed.

Lemma get_set (k k' v : string) (d : PyDict.dict) :
  PyDict.get k (PyDict.set k' v d) =
  if String.eqb k' k then Some v else PyDict.get k d.
Proof.
  induction d as [|[k0 v0] d IH]; simpl; [reflexivity|].
  destruct (String.eqb k0 k') eqn:E0; simpl.
  - apply String.eqb_eq in E0. subst k0. now destruct (String.eqb k' k).
  - destruct (String.eqb k0 k) eqn:E1; [|exact IH].
    apply String.eqb_eq in E1. subst k0.
    now rewrite (String.eqb_sym k' k), E0.
Qed.

Lemma get_fold (k : string) (es : list (string * string)) :
  forall d,
    PyDict.get k (fold_left set_entry es d) =
    match last_value k es with
    | Some v => Some v
    | None => PyDict.get k d
    end.
Proof.
  induction es as [|[k0 v0] es IH]; intros d; simpl; [reflexivity|].
  rewrite IH. destruct (last_value k es); [reflexivity|].
  unfold set_entry. simpl. rewrite get_set.
  now destruct (String.eqb k0 k).
Qed.

Lemma keys_set (k v : string) (d : PyDict.dict) :
  PyDict.keys (PyDict.set k v d) =
  if mem k (PyDict.keys d) then PyDict.keys d else (PyDict.keys d ++ [k])%list.
Proof.
  unfold PyDict.keys, mem.
  induction d as [|[k0 v0] d IH]; simpl; [reflexivity|].
  rewrite (String.eqb_sym k k0).
  destruct (String.eqb k0 k); simpl; [reflexivity|].
  rewrite IH. now destruct (existsb (String.eqb k) (map fst d)).
Qed.

Lemma filter_absorb {A : Type} (p q : A -> bool) (l : list A) :
  (forall x, p x = true -> q x = true) ->
  filter p (filter q l) = filter p l.
Proof.
  intros H. induction l as [|x l IH]; simpl; [reflexivity|].
  destruct (q x) eqn:Q; simpl.
  - now rewrite IH.
  - destruct (p x) eqn:P; [|exact IH].
    apply H in P. congruence.
Qed.

Lemma filter_and {A : Type} (p q r : A -> bool) (l : list A) :
  (forall x, r x = p x && q x) ->
  filter r l = filter p (filter q l).
Proof.
  intros H. induction l as [|x l IH]; simpl; [reflexivity|].
  rewrite H. destruct (q x); simpl.
  - rewrite andb_true_r. now rewrite IH.
  - now rewrite andb_false_r.
Qed.

Lemma mem_app (k : string) (l m : list string) :
  mem k (l ++ m)%list = mem k l || mem k m.
Proof. apply existsb_app. Qed.

Lemma keys_fold (es : list (string * string)) :
  forall d,
    PyDict.keys (fold_left set_entry es d) =
    (PyDict.keys d
     ++ filter (fun k => negb (mem k (PyDict.keys d)))
          (first_occurrences (map fst es)))%list.
Proof.
  induction es as [|[k0 v0] es IH]; intros d; simpl.
  - now rewrite app_nil_r.
  - rewrite IH. unfold set_entry at 1 2. simpl fst. simpl snd.
    rewrite keys_set. destruct (mem k0 (PyDict.keys d)) eqn:M; simpl.
    + f_equal. symmetry. apply filter_absorb. intros x Hx.
      destruct (String.eqb x k0) eqn:E; [|reflexivity].
      apply String.eqb_eq in E. subst x. now rewrite M in Hx.
    + rewrite <- app_assoc. simpl. do 2 f_equal.
      apply filter_and. intros x. rewrite mem_app. simpl.
      rewrite orb_false_r, negb_orb. reflexivity.
Qed.

Lemma collect_attributes_get (parts : list string) (k : string) :
  PyDict.get k (collect_attributes parts) = last_value k (entries parts).
Proof.
  unfold collect_attributes. rewrite collect_entries, get_fold.
  now destruct (last_value k (entries parts)).
Qed.

Lemma collect_attributes_keys (parts : list string) :
  PyDict.keys (collect_attributes parts) =
  first_occurrences (map fst (entries parts)).
Proof.
  unfold collect_attributes. rewrite collect_entries, keys_fold. simpl.
  induction (first_occurrences (map fst (entries parts))) as [|x l IH];
    simpl; [reflexivity | now rewrite IH].
Qed.

End AttributeFacts.

(** C5.  After the base64 flag and the MIME type have been consumed, the
    attributes are those declared by the remaining header segments: a
    segment with [=] declares the text before its first [=] as key and the
    text after it as value, a non-empty segment without [=] declares itself
    as key with the empty value, an empty segment declares nothing.  In the
    resulting mapping the value of a key is the one of its last declaration,
    and the keys stand in the order of their first declaration. *)
Theorem attributes_from_segments
  (meta data : string) (m : option string) (a : PyDict.dict) (c : list byte) :
  contains "," meta = false ->
  parse_data_uri ("data:" ++ meta ++ "," ++ data) = Ok (m, a, c) ->
  let parts := snd (pop_mime_type (remaining_segments meta)) in
  (forall k, PyDict.get k a = last_value k (entries parts))
  /\ PyDict.keys a = first_occurrences (map fst (entries parts))
  /\ (forall part, contains "=" part = true ->
        segment_entry part = Some (key_of part, value_of part)
        /\ part = key_of part ++ "=" ++ value_of part
        /\ contains "=" (key_of part) = false)
  /\ (forall part, contains "=" part = false -> part <> "" ->
        segment_entry part = Some (part, ""))
  /\ segment_entry "" = None.
Proof.
  intros Hm. rewrite parse_data_uri_sections, decode_sections_flag by exact Hm.
  destruct (pop_mime_type (remaining_segments meta)) as [m' parts] eqn:E.
  destruct (decode_content _ _); simpl; intros H; inversion H; subst.
  split; [|split; [|split; [|split]]].
  - intros k. apply collect_attributes_get.
  - apply collect_attributes_keys.
  - intros part Hp. unfold segment_entry. rewrite Hp.
    split; [reflexivity | now apply key_value_split].
  - intros part Hp Hn. unfold segment_entry. rewrite Hp.
    apply String.eqb_neq in Hn. now rewrite Hn.
  - reflexivity.
Qed.

Lemma attributes_from_segments_witness :
  PyDict.keys [("a", "3"); ("b", "")] = ["a"; "b"]
  /\ PyDict.get "a" [("a", "3"); ("b", "")] = Some "3".
Proof.
  pose proof (attributes_from_segments "text/plain;a=1;;b;a=3" "x"
                (Some "text/plain") [("a", "3"); ("b", "")]
                (list_byte_of_string "x") eq_refl eq_refl) as (G & K & _).
  split; [exact K | exact (G "a")].
Defined.

(* ================================================================== *)
(** ** The file URI decoder *)

Section CharacterFacts.

Import UrlParse.

Ltac by_cases a := destruct a as [[] [] [] [] [] [] [] []]; vm_compute; auto.

Lemma lower_char_scheme (a : ascii) :
  in_scheme_chars (lower_char a) = in_scheme_chars a.
Proof. by_cases a. Qed.

Lemma lower_char_alpha (a : ascii) :
  is_ascii_alpha (lower_char a) = is_ascii_alpha a.
Proof. by_cases a. Qed.

Lemma scheme_char_kept (a : ascii) :
  in_scheme_chars a = true ->
  Ascii.eqb a ":" = false /\ Ascii.eqb a "009" = false
  /\ Ascii.eqb a "013" = false /\ Ascii.eqb a "010" = false.
Proof. by_cases a; discriminate. Qed.

Lemma alpha_not_stripped (a : ascii) :
  is_ascii_alpha a = true -> is_c0_control_or_space a = false.
Proof. by_cases a; discriminate. Qed.

Lemma all_scheme_chars_lower (s : string) :
  all_scheme_chars (lower s) = all_scheme_chars s.
Proof.
  induction s as [|a s IH]; simpl; [reflexivity|].
  now rewrite lower_char_scheme, IH.
Qed.

Lemma first_is_alpha_lower (s : string) :
  first_is_alpha (lower s) = first_is_alpha s.
Proof. destruct s; simpl; [reflexivity | apply lower_char_alpha]. Qed.

End CharacterFacts.

Section SchemeFacts.

Import UrlParse.

Lemma remove_unsafe_scheme (s x : string) :
  all_scheme_chars s = true ->
  remove_unsafe (s ++ x) = s ++ remove_unsafe x.
Proof.
  unfold remove_unsafe.
  induction s as [|a s IH]; simpl; [reflexivity|].
  intros H. apply andb_prop in H as [Ha Hs].
  destruct (scheme_char_kept a Ha) as (_ & Ht & Hr & Hn).
  rewrite Ht. simpl. rewrite Hr. simpl. rewrite Hn.
  f_equal. now apply IH.
Qed.

Lemma find_scheme (s x : string) :
  all_scheme_chars s = true ->
  find ":" (s ++ String ":" x) = Z.of_nat (String.length s).
Proof.
  induction s as [|a s IH]; intros H.
  - reflexivity.
  - simpl in H. apply andb_prop in H as [Ha Hs].
    destruct (scheme_char_kept a Ha) as (Hc & _).
    cbn [append find String.length]. rewrite Hc, (IH Hs).
    destruct (Z.ltb_spec (Z.of_nat (String.length s)) 0); lia.
Qed.

Lemma slice_to_app (s x : string) : slice_to (String.length s) (s ++ x) = s.
Proof. induction s; simpl; [now destruct x | now f_equal]. Qed.

Lemma slice_from_app_sep (s x : string) (c : ascii) :
  slice_from (String.length s + 1) (s ++ String c x) = x.
Proof. induction s; simpl; auto. Qed.

Lemma split_scheme_app (s x : string) :
  first_is_alpha s = true ->
  all_scheme_chars s = true ->
  split_scheme (s ++ String ":" x) = (lower s, x).
Proof.
  intros Hf Ha. unfold split_scheme.
  rewrite find_scheme by exact Ha.
  rewrite Nat2Z.id, slice_to_app, slice_from_app_sep, Ha.
  destruct s as [|a s]; [discriminate|].
  cbn [append first_is_alpha]. simpl first_is_alpha in Hf. rewrite Hf.
  replace (0 <? Z.of_nat (String.length (String a s)))%Z with true
    by (symmetry; apply Z.ltb_lt; simpl String.length; lia).
  reflexivity.
Qed.

Lemma cleaned_scheme (s x : string) :
  first_is_alpha s = true ->
  all_scheme_chars s = true ->
  cleaned (s ++ String ":" x) = s ++ String ":" (remove_unsafe x).
Proof.
  intros Hf Ha. unfold cleaned.
  destruct s as [|a s]; [discriminate|].
  cbn [append lstrip_c0]. simpl in Hf.
  rewrite (alpha_not_stripped a Hf).
  change (String a (s ++ String ":" x)) with (String a s ++ String ":" x).
  rewrite remove_unsafe_scheme by exact Ha.
  f_equal. unfold remove_unsafe. reflexivity.
Qed.

(** An input [s:x] whose [s] starts with a letter and consists of scheme
    characters has the scheme [lower s]; the rest is [x] without tabs and
    line ends. *)
Lemma scheme_of_prefix (s x : string) :
  first_is_alpha s = true ->
  all_scheme_chars s = true ->
  split_scheme (cleaned (s ++ String ":" x)) = (lower s, remove_unsafe x).
Proof.
  intros Hf Ha. rewrite cleaned_scheme by assumption.
  now apply split_scheme_app.
Qed.

Lemma urlsplit_same_scheme (env : platform) (u1 u2 : string) :
  split_scheme (cleaned u1) = split_scheme (cleaned u2) ->
  urlsplit env u1 = urlsplit env u2.
Proof. unfold urlsplit, cleaned. now intros ->. Qed.

Lemma urlparse_same_scheme (env : platform) (u1 u2 : string) :
  split_scheme (cleaned u1) = split_scheme (cleaned u2) ->
  urlparse env u1 = urlparse env u2.
Proof. intros H. unfold urlparse. now rewrite (urlsplit_same_scheme env u1 u2 H). Qed.

End SchemeFacts.

Section AuthorityFacts.

Import UrlParse.

Lemma find_lower_bound (c : ascii) (s : string) : (-1 <= find c s)%Z.
Proof.
  induction s as [|a s IH]; simpl; [lia|].
  destruct (Ascii.eqb a c); [lia|].
  destruct (Z.ltb_spec (find c s) 0); lia.
Qed.

Lemma find_from_after_slashes (c : ascii) (r : string) :
  find_from c (String "/" (String "/" r)) 2 =
  if (find c r <? 0)%Z then (-1)%Z else (find c r + 2)%Z.
Proof. reflexivity. Qed.

Lemma earliest_shift (d x : Z) :
  (-1 <= x)%Z ->
  earliest (d + 1) (if (x <? 0)%Z then (-1)%Z else (x + 1)%Z)
  = (earliest d x + 1)%Z.
Proof.
  intros Hx. unfold earliest.
  destruct (Z.ltb_spec x 0).
  - reflexivity.
  - destruct (Z.ltb_spec (x + 1) 0); [lia|].
    destruct (Z.leb_spec 0 (x + 1 + 2)); [|lia].
    destruct (Z.leb_spec 0 (x + 2)); lia.
Qed.

Lemma earliest_here (d : Z) : (2 <= d)%Z -> earliest d 0 = 2%Z.
Proof. intros H. unfold earliest. simpl. lia. Qed.

Lemma earliest_bounds (d x : Z) :
  (-1 <= x)%Z -> (2 <= d)%Z -> (2 <= earliest d x <= d)%Z.
Proof.
  intros Hx Hd. unfold earliest.
  destruct (Z.ltb_spec x 0); simpl; [lia|].
  destruct (Z.leb_spec 0 (x + 2)); lia.
Qed.

Lemma earliest_two (x : Z) : (-1 <= x)%Z -> earliest 2 x = 2%Z.
Proof. intros H. pose proof (earliest_bounds 2 x H). lia. Qed.

(** The position [_splitnetloc] cuts at is the length of the authority. *)
Lemma delimiter_index (r : string) :
  earliest (earliest (earliest (Z.of_nat (String.length r) + 2)
                        (find "/" r)) (find "?" r)) (find "#" r)
  = (Z.of_nat (String.length (authority_text r)) + 2)%Z.
Proof.
  induction r as [|a r IH]; [reflexivity|].
  pose proof (find_lower_bound "/" r) as B1.
  pose proof (find_lower_bound "?" r) as B2.
  pose proof (find_lower_bound "#" r) as B3.
  set (d := (Z.of_nat (String.length (String a r)) + 2)%Z).
  assert (L : (2 <= d)%Z) by (subst d; lia).
  assert (S1 : forall c, (-1 <= (if (find c r <? 0)%Z then -1 else find c r + 1))%Z).
  { intros c. pose proof (find_lower_bound c r).
    destruct (Z.ltb_spec (find c r) 0); lia. }
  cbn [authority_text find]. unfold is_authority_end.
  destruct (Ascii.eqb a "/") eqn:E1.
  { simpl orb. cbv iota. rewrite (earliest_here _ L).
    rewrite !earliest_two; [reflexivity | |];
      match goal with
      | |- context [Ascii.eqb ?x ?y] => destruct (Ascii.eqb x y)
      end; auto; lia. }
  destruct (Ascii.eqb a "?") eqn:E2.
  { simpl orb. cbv iota. rewrite earliest_here.
    - rewrite earliest_two; [reflexivity|].
      destruct (Ascii.eqb a "#"); auto; lia.
    - apply earliest_bounds; auto. }
  destruct (Ascii.eqb a "#") eqn:E3.
  { simpl orb. cbv iota. rewrite earliest_here; [reflexivity|].
    repeat apply earliest_bounds; auto. }
  simpl orb. cbv iota.
  replace d with (Z.of_nat (String.length r) + 2 + 1)%Z
    by (subst d; cbn [String.length]; lia).
  rewrite !earliest_shift by
    (auto; repeat apply earliest_bounds; auto; lia).
  rewrite IH. cbn [String.length]. lia.
Qed.

Lemma authority_split (r : string) : r = authority_text r ++ after_authority r.
Proof.
  induction r as [|a r IH]; simpl; [reflexivity|].
  destruct (is_authority_end a); simpl; [reflexivity | now f_equal].
Qed.

Lemma slice_from_length_app (s x : string) :
  slice_from (String.length s) (s ++ x) = x.
Proof. induction s; simpl; auto. Qed.

Lemma splitnetloc_authority (r : string) :
  splitnetloc (String "/" (String "/" r)) 2 = (authority_text r, after_authority r).
Proof.
  unfold splitnetloc. cbn [fold_left].
  rewrite !find_from_after_slashes.
  change (Z.of_nat (String.length (String "/" (String "/" r))))
    with (Z.of_nat (S (S (String.length r)))).
  replace (Z.of_nat (S (S (String.length r))))
    with (Z.of_nat (String.length r) + 2)%Z by lia.
  fold (earliest (Z.of_nat (String.length r) + 2) (find "/" r)).
  fold (earliest (earliest (Z.of_nat (String.length r) + 2) (find "/" r))
          (find "?" r)).
  fold (earliest (earliest (earliest (Z.of_nat (String.length r) + 2)
                              (find "/" r)) (find "?" r)) (find "#" r)).
  rewrite delimiter_index.
  replace (Z.to_nat (Z.of_nat (String.length (authority_text r)) + 2))
    with (S (S (String.length (authority_text r)))) by lia.
  cbn [slice_from Nat.sub].
  rewrite Nat.sub_0_r.
  rewrite (authority_split r) at 2 4.
  now rewrite slice_to_app, slice_from_length_app.
Qed.

End AuthorityFacts.

Section UrlParseFacts.

Import UrlParse.

Variable env : platform.

Lemma prefix_cons (a b : ascii) (p s : string) :
  String.prefix (String a p) (String b s) =
  if Ascii.eqb a b then String.prefix p s else false.
Proof.
  cbn [String.prefix].
  destruct (ascii_dec a b); destruct (Ascii.eqb_spec a b);
    congruence || reflexivity.
Qed.

Lemma slice_to_2_startswith (url : string) :
  String.eqb (slice_to 2 url) "//" = startswith "//" url.
Proof.
  unfold startswith.
  destruct url as [|a [|b r]]; [reflexivity | |].
  - rewrite prefix_cons. cbn [slice_to String.eqb String.prefix].
    rewrite (Ascii.eqb_sym a). now destruct (Ascii.eqb "/" a).
  - rewrite !prefix_cons. cbn [slice_to String.eqb String.prefix].
    rewrite (Ascii.eqb_sym a), (Ascii.eqb_sym b).
    destruct (Ascii.eqb "/" a); [|reflexivity].
    destruct (Ascii.eqb "/" b); [now destruct r | reflexivity].
Qed.

Lemma startswith_slashes (rest : string) :
  startswith "//" rest = true ->
  rest = String "/" (String "/" (slice_from 2 rest)).
Proof. intros H. now apply startswith_inv in H. Qed.

(** The authority section of [urlsplit]: the network location and the text
    after it, or a failure of one of the bracket checks. *)
Lemma urlsplit_netloc_section (rest : string) :
  (if String.eqb (slice_to 2 rest) "//" then
     let '(netloc, url) := splitnetloc rest 2 in
     if (contains "[" netloc && negb (contains "]" netloc))
        || (contains "]" netloc && negb (contains "[" netloc))
     then Err InvalidURL
     else if contains "[" netloc && contains "]" netloc
             && negb (check_bracketed_netloc env netloc)
     then Err InvalidURL
     else Ok (netloc, url)
   else Ok (EmptyString, rest))
  = match authority rest with
    | Some a =>
        if (contains "[" a && negb (contains "]" a))
           || (contains "]" a && negb (contains "[" a))
        then Err InvalidURL
        else if contains "[" a && contains "]" a
                && negb (check_bracketed_netloc env a)
        then Err InvalidURL
        else Ok (a, after_authority (slice_from 2 rest))
    | None => Ok (EmptyString, rest)
    end.
Proof.
  unfold authority. rewrite slice_to_2_startswith.
  destruct (startswith "//" rest) eqn:S; [|reflexivity].
  rewrite (startswith_slashes rest S) at 1.
  now rewrite splitnetloc_authority.
Qed.

Lemma urlsplit_ok (uri sch nl p q f : string) :
  urlsplit env uri = Ok (sch, nl, p, q, f) ->
  sch = parsed_scheme uri /\ nl = parsed_netloc uri.
Proof.
  unfold urlsplit, parsed_scheme, parsed_netloc, after_scheme.
  fold (cleaned uri).
  destruct (split_scheme (cleaned uri)) as [sch0 rest]. cbn [fst snd].
  rewrite urlsplit_netloc_section.
  destruct (authority rest) as [a|].
  - destruct (_ || _); [discriminate|].
    destruct (_ && _); [discriminate|]. cbn [bind].
    destruct (if contains "#" _ then _ else _) as [u1 fr].
    destruct (if contains "?" u1 then _ else _) as [u2 qu].
    destruct (checknetloc env a); [|discriminate].
    intros H. inversion H. auto.
  - cbn [bind].
    destruct (if contains "#" _ then _ else _) as [u1 fr].
    destruct (if contains "?" u1 then _ else _) as [u2 qu].
    destruct (checknetloc env ""); [|discriminate].
    intros H. inversion H. auto.
Qed.

Lemma urlsplit_error (uri : string) (e : error) :
  urlsplit env uri = Err e -> e = InvalidURL.
Proof.
  unfold urlsplit.
  destruct (split_scheme _) as [sch0 rest].
  rewrite urlsplit_netloc_section.
  destruct (authority rest) as [a|].
  - destruct (_ || _); [intros H; now inversion H|].
    destruct (_ && _); [intros H; now inversion H|]. cbn [bind].
    destruct (if contains "#" _ then _ else _) as [u1 fr].
    destruct (if contains "?" u1 then _ else _) as [u2 qu].
    destruct (checknetloc env a); [discriminate|].
    intros H. now inversion H.
  - cbn [bind].
    destruct (if contains "#" _ then _ else _) as [u1 fr].
    destruct (if contains "?" u1 then _ else _) as [u2 qu].
    destruct (checknetloc env ""); [discriminate|].
    intros H. now inversion H.
Qed.

Lemma urlsplit_total (uri : string) :
  contains "[" (parsed_netloc uri) = false ->
  contains "]" (parsed_netloc uri) = false ->
  isascii (parsed_netloc uri) = true ->
  exists p q f,
    urlsplit env uri = Ok (parsed_scheme uri, parsed_netloc uri, p, q, f).
Proof.
  unfold urlsplit, parsed_scheme, parsed_netloc, after_scheme.
  fold (cleaned uri).
  destruct (split_scheme (cleaned uri)) as [sch0 rest]. cbn [fst snd].
  rewrite urlsplit_netloc_section.
  destruct (authority rest) as [a|]; intros Ho Hc Ha.
  - rewrite Ho, Hc. cbn [andb orb bind].
    destruct (if contains "#" _ then _ else _) as [u1 fr].
    destruct (if contains "?" u1 then _ else _) as [u2 qu].
    unfold checknetloc. rewrite Ha, orb_true_r. eauto.
  - cbn [bind].
    destruct (if contains "#" _ then _ else _) as [u1 fr].
    destruct (if contains "?" u1 then _ else _) as [u2 qu].
    cbn. eauto.
Qed.

Lemma urlparse_ok (uri : string) (r : ParseResult) :
  urlparse env uri = Ok r ->
  scheme r = parsed_scheme uri /\ netloc r = parsed_netloc uri.
Proof.
  unfold urlparse.
  destruct (urlsplit env uri) as [[[[[sch nl] p] q] f]|e] eqn:E;
    [|discriminate].
  apply urlsplit_ok in E. cbn [bind].
  destruct (if _ && _ then _ else _) as [u pa].
  intros H. inversion H. exact E.
Qed.

Lemma urlparse_error (uri : string) (e : error) :
  urlparse env uri = Err e -> e = InvalidURL.
Proof.
  unfold urlparse.
  destruct (urlsplit env uri) as [[[[[sch nl] p] q] f]|e'] eqn:E; cbn [bind].
  - destruct (if _ && _ then _ else _) as [u pa]. discriminate.
  - intros H. inversion H. subst. now apply urlsplit_error in E.
Qed.

Lemma urlparse_total (uri : string) :
  contains "[" (parsed_netloc uri) = false ->
  contains "]" (parsed_netloc uri) = false ->
  isascii (parsed_netloc uri) = true ->
  exists r, urlparse env uri = Ok r.
Proof.
  intros Ho Hc Ha.
  destruct (urlsplit_total uri Ho Hc Ha) as (p & q & f & E).
  unfold urlparse. rewrite E. cbn [bind].
  destruct (if _ && _ then _ else _) as [u pa]. eauto.
Qed.

Lemma file_uri_to_path_parsed (uri : string) (r : ParseResult) :
  urlparse env uri = Ok r ->
  file_uri_to_path env uri =
  if String.eqb (parsed_scheme uri) "file"
  then Ok (if String.eqb (parsed_netloc uri) "" then None
           else Some (parsed_netloc uri),
           PosixPath.abspath env (UnquoteStr.url2pathname (path r)))
  else Err InvalidScheme.
Proof.
  intros E. unfold file_uri_to_path. rewrite E. cbn [bind].
  destruct (urlparse_ok uri r E) as [-> ->].
  destruct (String.eqb (parsed_scheme uri) "file"); [|reflexivity].
  cbn [negb]. now destruct (String.eqb (parsed_netloc uri) "").
Qed.

Lemma file_uri_to_path_unparsed (uri : string) (e : error) :
  urlparse env uri = Err e -> file_uri_to_path env uri = Err InvalidURL.
Proof.
  intros E. unfold file_uri_to_path. rewrite E. cbn [bind].
  now rewrite (urlparse_error uri e E).
Qed.

End UrlParseFacts.

(** ** Claims about [file_uri_to_path] *)

(** C6, as the code has it.  The URL parser can itself raise: it does so
    only with [InvalidURL], and never when the authority of the input is
    ASCII and contains no bracket.  Whenever it returns, the decoder fails
    with [InvalidScheme] exactly when the parsed scheme of the input is not
    [file], and returns a (network location, path) result when it is. *)
Theorem scheme_validation (env : platform) (uri : string) :
  (forall r, UrlParse.urlparse env uri = Ok r ->
     (file_uri_to_path env uri = Err InvalidScheme
      <-> parsed_scheme uri <> "file")
     /\ (parsed_scheme uri = "file" ->
         exists nl p, file_uri_to_path env uri = Ok (nl, p)))
  /\ (contains "[" (parsed_netloc uri) = false ->
      contains "]" (parsed_netloc uri) = false ->
      isascii (parsed_netloc uri) = true ->
      exists r, UrlParse.urlparse env uri = Ok r)
  /\ (forall e, UrlParse.urlparse env uri = Err e ->
      file_uri_to_path env uri = Err InvalidURL).
Proof.
  split; [|split].
  - intros r E. rewrite (file_uri_to_path_parsed env uri r E).
    destruct (String.eqb_spec (parsed_scheme uri) "file") as [Hs|Hs].
    + split; [split; [discriminate | contradiction] | eauto].
    + split; [split; auto | contradiction].
  - apply urlparse_total.
  - apply file_uri_to_path_unparsed.
Qed.

Lemma scheme_validation_witness :
  exists nl p,
    file_uri_to_path sample_platform "file:///tmp/a%20b.txt" = Ok (nl, p).
Proof.
  destruct (proj1 (proj2 (scheme_validation sample_platform
                            "file:///tmp/a%20b.txt"))
              eq_refl eq_refl eq_refl) as [r E].
  exact (proj2 (proj1 (scheme_validation sample_platform
                         "file:///tmp/a%20b.txt") r E) eq_refl).
Defined.

(** C6 as stated fails: the parsed scheme of [file://[x] is [file], and the
    decoder raises inside the URL parser instead of returning. *)
Lemma scheme_file_raises_counterexample :
  parsed_scheme "file://[x" = "file"
  /\ file_uri_to_path sample_platform "file://[x" = Err InvalidURL.
Proof. split; reflexivity. Qed.



(** C10, as the code has it.  An input whose scheme is [file] up to letter
    case is decoded as the input with the scheme [file], because the URL
    parser lowercases the scheme before the comparison: the result is the
    same and it is never [InvalidScheme].  It is a (network location, path)
    result whenever the URL parser returns, which it does at least when the
    authority is ASCII and contains no bracket; the only failure left is
    the one raised inside the URL parser.  [FILE:///tmp/x] decodes to
    [/tmp/x]. *)
Theorem scheme_case_insensitive (env : platform) (s rest : string) :
  lower s = "file" ->
  file_uri_to_path env (s ++ ":" ++ rest) = file_uri_to_path env ("file:" ++ rest)
  /\ file_uri_to_path env (s ++ ":" ++ rest) <> Err InvalidScheme
  /\ (forall r, UrlParse.urlparse env (s ++ ":" ++ rest) = Ok r ->
      exists nl p, file_uri_to_path env (s ++ ":" ++ rest) = Ok (nl, p))
  /\ (contains "[" (parsed_netloc (s ++ ":" ++ rest)) = false ->
      contains "]" (parsed_netloc (s ++ ":" ++ rest)) = false ->
      isascii (parsed_netloc (s ++ ":" ++ rest)) = true ->
      exists nl p, file_uri_to_path env (s ++ ":" ++ rest) = Ok (nl, p))
  /\ (forall e, file_uri_to_path env (s ++ ":" ++ rest) = Err e ->
      e = InvalidURL)
  /\ file_uri_to_path env "FILE:///tmp/x" = Ok (None, "/tmp/x").
Proof.
  intros Hl.
  assert (Hf : UrlParse.first_is_alpha s = true)
    by (rewrite <- first_is_alpha_lower, Hl; reflexivity).
  assert (Ha : UrlParse.all_scheme_chars s = true)
    by (rewrite <- all_scheme_chars_lower, Hl; reflexivity).
  assert (Hs : UrlParse.split_scheme (cleaned (s ++ ":" ++ rest))
               = ("file", UrlParse.remove_unsafe rest))
    by (rewrite <- Hl; now apply scheme_of_prefix).
  assert (Hp : parsed_scheme (s ++ ":" ++ rest) = "file")
    by (unfold parsed_scheme; now rewrite Hs).
  assert (Hu : UrlParse.urlparse env (s ++ ":" ++ rest)
               = UrlParse.urlparse env ("file:" ++ rest)).
  { apply urlparse_same_scheme. rewrite Hs. symmetry.
    now apply (scheme_of_prefix "file" rest). }
  assert (Hok : forall r, UrlParse.urlparse env (s ++ ":" ++ rest) = Ok r ->
                exists nl p,
                  file_uri_to_path env (s ++ ":" ++ rest) = Ok (nl, p)).
  { intros r E. rewrite (file_uri_to_path_parsed env _ r E), Hp. simpl. eauto. }
  split; [|split; [|split; [|split; [|split]]]].
  - unfold file_uri_to_path. now rewrite Hu.
  - destruct (UrlParse.urlparse env (s ++ ":" ++ rest)) as [r|e] eqn:E.
    + rewrite (file_uri_to_path_parsed env _ r E), Hp. discriminate.
    + rewrite (file_uri_to_path_unparsed env _ e E). discriminate.
  - exact Hok.
  - intros Ho Hc Hi.
    destruct (urlparse_total env _ Ho Hc Hi) as [r E]. now apply (Hok r).
  - intros e. destruct (UrlParse.urlparse env (s ++ ":" ++ rest)) as [r|e'] eqn:E.
    + destruct (Hok r eq_refl) as (nl & p & ->). discriminate.
    + rewrite (file_uri_to_path_unparsed env _ e' E). now intros [= <-].
  - reflexivity.
Qed.

Lemma scheme_case_insensitive_witness :
  file_uri_to_path sample_platform "FiLe://server/share/doc.txt" =
  file_uri_to_path sample_platform "file://server/share/doc.txt".
Proof.
  exact (proj1 (scheme_case_insensitive sample_platform "FiLe"
                  "//server/share/doc.txt" eq_refl)).
Defined.

(** C10 as stated fails: the scheme of [FILE://[x] differs from [file] only
    in letter case, and the decoder does not succeed; it raises inside the
    URL parser. *)
Lemma scheme_case_raises_counterexample :
  lower "FILE" = "file"
  /\ parsed_scheme "FILE://[x" = "file"
  /\ file_uri_to_path sample_platform "FILE://[x" = Err InvalidURL.
Proof. repeat split; reflexivity. Qed.

(** ** Path normalisation *)

Section PathFacts.

Import PosixPath UnquoteStr.

Lemma rev_removelast {A : Type} (l : list A) :
  rev (List.removelast l) = tl (rev l).
Proof.
  induction l as [|x l IH] using rev_ind; [reflexivity|].
  now rewrite removelast_last, rev_unit.
Qed.

Lemma last_in {A : Type} (l : list A) (d : A) :
  l <> [] -> In (List.last l d) l.
Proof.
  induction l as [|x l IH]; [contradiction|].
  intros _. destruct l as [|y l]; [now left|].
  right. apply IH. discriminate.
Qed.

Lemma removelast_in {A : Type} (l : list A) (x : A) :
  In x (List.removelast l) -> In x l.
Proof.
  induction l as [|y l IH]; [contradiction|].
  destruct l as [|z l]; [contradiction|].
  intros [H|H]; [now left | right; now apply IH].
Qed.

(** On an absolute path the loop of [normpath] is the lexical collapse. *)
Lemma norm_fold_collapse (initial : nat) (comps : list string) :
  initial <> 0%nat ->
  forall new_comps,
    ~ In ".." new_comps ->
    fold_left (norm_step initial) comps new_comps =
    collapse_onto (rev new_comps) comps.
Proof.
  intros Hi.
  induction comps as [|comp comps IH]; intros nc Hn; cbn [fold_left collapse_onto].
  - now rewrite rev_involutive.
  - unfold norm_step at 2.
    destruct (String.eqb comp "" || String.eqb comp ".");
      [now apply IH|].
    destruct (String.eqb_spec comp "..") as [->|Hc]; cbn [negb orb].
    + replace (initial =? 0)%nat with false
        by (symmetry; now apply Nat.eqb_neq).
      cbn [andb orb].
      destruct nc as [|x nc].
      * cbn [andb]. now apply IH.
      * replace (String.eqb (List.last (x :: nc) "") "..") with false.
        -- cbn [andb]. rewrite IH, rev_removelast; [reflexivity|].
           intros H. apply Hn. now apply removelast_in.
        -- symmetry. apply String.eqb_neq. intros E. apply Hn.
           rewrite <- E. apply last_in. discriminate.
    + rewrite IH.
      * now rewrite rev_unit.
      * intros H. apply in_app_or in H as [H|[H|[]]]; [now apply Hn|].
        now apply Hc.
Qed.

Lemma collapse_onto_plain (comps : list string) :
  forall stack,
    Forall plain_component stack ->
    Forall plain_component (collapse_onto stack comps).
Proof.
  induction comps as [|comp comps IH]; intros stack Hs; cbn [collapse_onto].
  - now apply Forall_rev.
  - destruct (String.eqb_spec comp "") as [|H1]; [now apply IH|].
    destruct (String.eqb_spec comp ".") as [|H2]; [now apply IH|].
    cbn [orb].
    destruct (String.eqb_spec comp "..") as [|H3].
    + apply IH. destruct stack; [constructor | now inversion Hs].
    + apply IH. constructor; [now repeat split | exact Hs].
Qed.

Lemma initial_slashes_absolute (p : string) :
  isabs p = true -> initial_slashes p = 1%nat \/ initial_slashes p = 2%nat.
Proof.
  unfold isabs, initial_slashes. intros ->.
  destruct (_ && _); auto.
Qed.

Lemma startswith_slash_cons (p : string) :
  startswith "/" p = true -> exists p', p = String "/" p'.
Proof.
  intros H. apply startswith_inv in H. eauto.
Qed.

(** [normpath] of an absolute path: the initial slashes followed by the
    collapsed components. *)
Lemma normpath_absolute (p : string) :
  isabs p = true ->
  normpath p =
  repeat_sep (initial_slashes p) ++ join "/" (collapse (split "/" p)).
Proof.
  intros Ha. unfold normpath, collapse. cbv zeta.
  destruct (startswith_slash_cons p Ha) as [p' E].
  assert (Hne : initial_slashes p <> 0%nat)
    by (destruct (initial_slashes_absolute p Ha) as [-> | ->]; discriminate).
  rewrite (norm_fold_collapse _ (split "/" p) Hne [] (fun H => H)).
  cbn [rev].
  destruct (initial_slashes_absolute p Ha) as [-> | ->];
    rewrite E at 1; reflexivity.
Qed.

Lemma normpath_is_absolute (p : string) :
  isabs p = true -> isabs (normpath p) = true.
Proof.
  intros Ha. rewrite (normpath_absolute p Ha).
  unfold isabs.
  destruct (initial_slashes_absolute p Ha) as [-> | ->].
  - apply (startswith_app "/").
  - apply (startswith_app "/" (String "/" _)).
Qed.

Lemma join_path_absolute (a b : string) :
  isabs a = true -> isabs (join_path a b) = true.
Proof.
  unfold isabs, join_path. intros Ha.
  destruct (startswith "/" b) eqn:Hb; [exact Hb|].
  destruct (startswith_slash_cons a Ha) as [a' ->].
  destruct (_ || _).
  - apply (startswith_app "/" (a' ++ b)).
  - apply (startswith_app "/" (a' ++ "/" ++ b)).
Qed.


(** *** Percent-decoding of an ASCII path *)





End PathFacts.



(** ** The examples of the specification *)

Example decode_hello :
  parse_data_uri "data:text/plain;base64,SGVsbG8=" =
  Ok (Some "text/plain", [], list_byte_of_string "Hello").
Proof. reflexivity. Qed.

Example decode_charset :
  parse_data_uri "data:;charset=utf-8,Hi%20there" =
  Ok (None, [("charset", "utf-8")], list_byte_of_string "Hi there").
Proof. reflexivity. Qed.

Example decode_not_a_data_uri :
  parse_data_uri "not-a-data-uri" = Err NotADataURI.
Proof. reflexivity. Qed.

Example decode_no_comma :
  parse_data_uri "data:text/plain" = Err MalformedDataURI.
Proof. reflexivity. Qed.

Example decode_other_scheme :
  file_uri_to_path sample_platform "http://example.org/a" = Err InvalidScheme.
Proof. reflexivity. Qed.

Example decode_relative_file :
  file_uri_to_path sample_platform "file:notes/../a%20b.txt" =
  Ok (None, "/home/user/a b.txt").
Proof. reflexivity. Qed.

(* ================================================================== *)
(** * Further properties of the decoders *)

(** ** Failure kinds of [parse_data_uri] *)

(** X1.  [parse_data_uri] fails with [NotADataURI] exactly when the input
    does not start with the literal [data:] (the test is case-sensitive and
    comes before the search for a comma), and with [MalformedDataURI]
    exactly when it starts with [data:] and contains no comma. *)
Theorem data_uri_failure_kinds (uri : string) :
  (parse_data_uri uri = Err NotADataURI <-> startswith "data:" uri = false)
  /\ (parse_data_uri uri = Err MalformedDataURI
      <-> startswith "data:" uri = true /\ contains "," uri = false).
Proof.
  destruct (startswith "data:" uri) eqn:Hp.
  - pose proof (startswith_inv _ _ Hp) as E. cbn [String.length] in E.
    set (rest := slice_from 5 uri) in E.
    assert (K : forall e, parse_data_uri uri = Err e ->
                (e = MalformedDataURI /\ contains "," uri = false)
                \/ (e = InvalidBase64 /\ contains "," uri = true)).
    { intros e H. rewrite E in H |- *.
      destruct (contains "," ("data:" ++ rest)) eqn:Hc.
      - simpl in Hc. apply contains_first in Hc as (h & t & Hr & Hh).
        rewrite Hr in H. change (h ++ String "," t) with (h ++ "," ++ t) in H.
        rewrite parse_data_uri_sections in H by exact Hh.
        apply decode_sections_error in H as [-> _]. now right.
      - rewrite parse_data_uri_no_comma in H by exact Hc.
        inversion H. now left. }
    split; split.
    + intros H. apply K in H as [[H _]|[H _]]; discriminate.
    + discriminate.
    + intros H. apply K in H as [[_ H]|[H _]]; [now split | discriminate].
    + intros [_ Hc]. rewrite E in Hc |- *. now apply parse_data_uri_no_comma.
  - assert (H : parse_data_uri uri = Err NotADataURI)
      by (unfold parse_data_uri; now rewrite Hp).
    rewrite H. split; split; try reflexivity; try discriminate.
    intros [? _]. discriminate.
Qed.

(** ** Percent-decoding of the payload *)

Section PercentFacts.

Import Unquote.

Lemma split_single (c : ascii) (s x : string) : split c s = [x] -> x = s.
Proof.
  revert x. induction s as [|a s IH]; intros x; simpl.
  - now intros [= <-].
  - destruct (Ascii.eqb a c).
    + intros [= _ H]. now apply split_not_nil in H.
    + destruct (split c s) as [|h t] eqn:E; [now apply split_not_nil in E|].
      intros [= <- ->]. now rewrite (IH h eq_refl).
Qed.

Lemma unquote_to_bytes_pieces (s : string) :
  unquote_to_bytes s =
  match split "%" s with
  | x0 :: t => (list_byte_of_string x0 ++ List.concat (map unquote_item t))%list
  | [] => []
  end.
Proof.
  unfold unquote_to_bytes.
  destruct (String.eqb_spec s "") as [->|_]; [reflexivity|].
  destruct (split "%" s) as [|x0 [|x1 t]] eqn:E; try reflexivity.
  rewrite (split_single _ _ _ E). cbn [map List.concat].
  now rewrite app_nil_r.
Qed.

Lemma list_byte_of_string_cons (c : ascii) (s : string) :
  list_byte_of_string (String c s) = byte_of_ascii c :: list_byte_of_string s.
Proof. reflexivity. Qed.

Lemma unquote_raw (c : ascii) (s : string) :
  Ascii.eqb c "%" = false ->
  unquote_to_bytes (String c s) = byte_of_ascii c :: unquote_to_bytes s.
Proof.
  intros Hc. rewrite !unquote_to_bytes_pieces. cbn [split]. rewrite Hc.
  destruct (split "%" s) as [|x0 t] eqn:E; [now apply split_not_nil in E|].
  reflexivity.
Qed.

Lemma unquote_percent (s : string) :
  unquote_to_bytes (String "%" s) =
  match split "%" s with
  | x0 :: t => (unquote_item x0 ++ List.concat (map unquote_item t))%list
  | [] => []
  end.
Proof.
  rewrite unquote_to_bytes_pieces. cbn [split]. rewrite Ascii.eqb_refl.
  destruct (split "%" s) as [|x0 t] eqn:E; [now apply split_not_nil in E|].
  reflexivity.
Qed.

Lemma unquote_percent_literal (s : string) :
  (forall x0 t, split "%" s = x0 :: t -> hextobyte (slice_to 2 x0) = None) ->
  unquote_to_bytes (String "%" s) = byte_of_ascii "%" :: unquote_to_bytes s.
Proof.
  intros H. rewrite unquote_percent, unquote_to_bytes_pieces.
  destruct (split "%" s) as [|x0 t] eqn:E; [now apply split_not_nil in E|].
  unfold unquote_item at 1. now rewrite (H x0 t eq_refl).
Qed.

Lemma hex_value_not_percent (c : ascii) (v : Z) :
  hex_value c = Some v -> Ascii.eqb c "%" = false.
Proof.
  destruct (Ascii.eqb_spec c "%") as [->|]; [discriminate | reflexivity].
Qed.

Lemma hextobyte_digits (h l : ascii) (b : byte) :
  hextobyte (String h (String l "")) = Some b ->
  Ascii.eqb h "%" = false /\ Ascii.eqb l "%" = false.
Proof.
  unfold hextobyte.
  destruct (hex_value h) eqn:Hh; [|discriminate].
  destruct (hex_value l) eqn:Hl; [|discriminate].
  intros _. split; eapply hex_value_not_percent; eassumption.
Qed.

Lemma hextobyte_percent (h l : ascii) :
  Ascii.eqb h "%" = true \/ Ascii.eqb l "%" = true ->
  hextobyte (String h (String l "")) = None.
Proof.
  destruct (hextobyte (String h (String l ""))) eqn:E; [|reflexivity].
  apply hextobyte_digits in E as [E1 E2].
  intros [H|H]; congruence.
Qed.

(** The bytes [unquote_to_bytes] produces are those of the scan. *)
Lemma unquote_to_bytes_scan_bounded (n : nat) :
  forall s, (String.length s <= n)%nat -> unquote_to_bytes s = percent_scan s.
Proof.
  induction n as [|n IH]; intros s Hn.
  - destruct s; [reflexivity | simpl in Hn; lia].
  - destruct s as [|c s]; [reflexivity|].
    cbn [String.length] in Hn. cbn [percent_scan].
    destruct (Ascii.eqb c "%") eqn:Hc.
    + apply Ascii.eqb_eq in Hc. subst c.
      destruct s as [|h [|l s]].
      * reflexivity.
      * rewrite unquote_percent_literal.
        -- now rewrite (IH (String h "")) by (cbn [String.length] in *; lia).
        -- intros x0 t. cbn [split].
           destruct (Ascii.eqb h "%"); intros [= <- _]; reflexivity.
      * cbn [String.length] in Hn.
        destruct (hextobyte (String h (String l ""))) as [b|] eqn:Hb.
        -- destruct (hextobyte_digits h l b Hb) as [Hh Hl].
           rewrite unquote_percent. cbn [split]. rewrite Hh, Hl.
           rewrite <- (IH s) by lia. rewrite (unquote_to_bytes_pieces s).
           destruct (split "%" s) as [|x0 t] eqn:E;
             [now apply split_not_nil in E|].
           unfold unquote_item at 1. cbn [slice_to slice_from]. rewrite Hb.
           reflexivity.
        -- rewrite unquote_percent_literal.
           ++ now rewrite (IH (String h (String l s))) by (cbn [String.length] in *; lia).
           ++ intros x0 t. cbn [split].
              destruct (Ascii.eqb h "%") eqn:Hh; [intros [= <- _]; reflexivity|].
              destruct (Ascii.eqb l "%") eqn:Hl.
              ** intros [= <- _]. reflexivity.
              ** destruct (split "%" s) as [|y0 t'] eqn:E;
                   [now apply split_not_nil in E|].
                 intros [= <- _]. exact Hb.
    + rewrite unquote_raw by exact Hc. now rewrite (IH s) by lia.
Qed.

Lemma unquote_to_bytes_scan (s : string) :
  unquote_to_bytes s = percent_scan s.
Proof. now apply (unquote_to_bytes_scan_bounded (String.length s)). Qed.

Lemma percent_scan_length_bounded (n : nat) :
  forall s, (String.length s <= n)%nat ->
            (List.length (percent_scan s) <= String.length s)%nat.
Proof.
  induction n as [|n IH]; intros s Hn.
  - destruct s; [simpl; lia | simpl in Hn; lia].
  - destruct s as [|c s]; [simpl; lia|].
    cbn [String.length] in Hn |- *. cbn [percent_scan].
    assert (R : (List.length (byte_of_ascii c :: percent_scan s)
                 <= S (String.length s))%nat)
      by (cbn [List.length]; specialize (IH s); lia).
    destruct (Ascii.eqb c "%"); [|exact R].
    destruct s as [|h [|l s]]; try exact R.
    destruct (hextobyte _); [|exact R].
    cbn [String.length List.length] in *. specialize (IH s). lia.
Qed.

Lemma percent_scan_plain (s : string) :
  contains "%" s = false -> percent_scan s = list_byte_of_string s.
Proof.
  induction s as [|c s IH]; [reflexivity|].
  cbn [contains percent_scan]. intros H.
  apply orb_false_elim in H as [Hc Hs].
  now rewrite Hc, (IH Hs).
Qed.

End PercentFacts.

(** X2.  Without the base64 flag the content is the payload scanned from
    left to right: a [%] followed by two hexadecimal digits gives the byte
    they denote, and every other character, including a [%] that is not
    followed by two hexadecimal digits, is copied as it is.  The content is
    never longer than the payload, and a payload without [%] is returned
    unchanged. *)
Theorem percent_decoding_is_scan (meta data : string) :
  contains "," meta = false ->
  flag_segment meta = false ->
  (exists m a,
     parse_data_uri ("data:" ++ meta ++ "," ++ data)
     = Ok (m, a, percent_scan data))
  /\ (List.length (percent_scan data) <= String.length data)%nat
  /\ (contains "%" data = false -> percent_scan data = list_byte_of_string data).
Proof.
  intros Hm Hf. split; [|split].
  - rewrite parse_data_uri_sections, decode_sections_flag by exact Hm.
    rewrite Hf. destruct (pop_mime_type (remaining_segments meta)) as [m parts].
    cbn [decode_content bind]. rewrite unquote_to_bytes_scan. eauto.
  - now apply (percent_scan_length_bounded (String.length data)).
  - apply percent_scan_plain.
Qed.

Lemma percent_decoding_is_scan_witness :
  exists m a,
    parse_data_uri "data:text/plain,100%25%zz%4"
    = Ok (m, a, list_byte_of_string "100%%zz%4").
Proof.
  exact (proj1 (percent_decoding_is_scan "text/plain" "100%25%zz%4"
                  eq_refl eq_refl)).
Defined.

(** ** Round trips through the payload encodings *)

Section ByteEnumeration.

Lemma all_bytes_complete (b : byte) : In b all_bytes.
Proof.
  assert (H : existsb (Byte.eqb b) all_bytes = true)
    by (destruct b; vm_compute; reflexivity).
  apply existsb_exists in H as (x & Hin & E).
  apply Byte.byte_dec_bl in E. now subst x.
Qed.

Lemma for_all_bytes (P : byte -> bool) :
  forallb P all_bytes = true -> forall b, P b = true.
Proof.
  intros H b. rewrite forallb_forall in H. apply H, all_bytes_complete.
Qed.

Lemma for_all_byte_pairs (P : byte -> byte -> bool) :
  forallb (fun a => forallb (P a) all_bytes) all_bytes = true ->
  forall a b, P a b = true.
Proof.
  intros H a b.
  apply (for_all_bytes (P a)), (for_all_bytes _ H).
Qed.

End ByteEnumeration.

Section PercentRoundTrip.

Lemma percent_escape_decodes (b : byte) :
  Unquote.hextobyte
    (String (hex_digit (UnquoteStr.bz b / 16))
       (String (hex_digit (UnquoteStr.bz b mod 16)) "")) = Some b.
Proof.
  assert (K : match Unquote.hextobyte
                      (String (hex_digit (UnquoteStr.bz b / 16))
                         (String (hex_digit (UnquoteStr.bz b mod 16)) "")) with
              | Some b' => Byte.eqb b' b
              | None => false
              end = true).
  { revert b. apply for_all_bytes. vm_compute. reflexivity. }
  destruct (Unquote.hextobyte _) as [b'|]; [|discriminate].
  now apply Byte.byte_dec_bl in K as ->.
Qed.

Lemma unreserved_not_percent (b : byte) :
  is_unreserved b = true -> Ascii.eqb (ascii_of_byte b) "%" = false.
Proof.
  intros H.
  assert (K : implb (is_unreserved b)
                (negb (Ascii.eqb (ascii_of_byte b) "%")) = true).
  { revert b H. intros b _. revert b.
    apply for_all_bytes. vm_compute. reflexivity. }
  rewrite H in K. cbn [implb] in K. now apply negb_true_iff in K.
Qed.

Lemma percent_scan_encode (bs : list byte) :
  percent_scan (percent_encode bs) = bs.
Proof.
  induction bs as [|b bs IH]; [reflexivity|].
  cbn [percent_encode].
  destruct (is_unreserved b) eqn:Hu.
  - cbn [append percent_scan].
    rewrite (unreserved_not_percent b Hu), IH.
    now rewrite byte_of_ascii_of_byte.
  - unfold percent_escape. cbn [append percent_scan].
    rewrite Ascii.eqb_refl, percent_escape_decodes. now rewrite IH.
Qed.

End PercentRoundTrip.

Section Base64RoundTrip.

Import Base64 UnquoteStr.

Lemma stands_for_spec (ch : ascii) (v : Z) :
  stands_for ch v = true ->
  table_a2b_base64 ch = Some v /\ Ascii.eqb ch "=" = false
  /\ isascii_char ch = true.
Proof.
  unfold stands_for. intros H.
  apply andb_prop in H as [H Ha]. apply andb_prop in H as [Ht Hp].
  destruct (table_a2b_base64 ch) as [v'|]; [|discriminate].
  apply Z.eqb_eq in Ht. subst v'. apply negb_true_iff in Hp. auto.
Qed.

Lemma sextet0_char (a : byte) :
  stands_for (b64_char (sextet0 a)) (sextet0 a) = true.
Proof. revert a. apply for_all_bytes. vm_compute. reflexivity. Qed.

Lemma sextet1_char (a b : byte) :
  stands_for (b64_char (sextet1 a b)) (sextet1 a b)
  && Byte.eqb
       (byte_of_Z (Z.lor (Z.shiftl (sextet0 a) 2) (Z.shiftr (sextet1 a b) 4))) a
  && (Z.land (sextet1 a b) 15 =? Z.land (bz b / 16) 15)%Z = true.
Proof. revert a b. apply for_all_byte_pairs. vm_compute. reflexivity. Qed.

Lemma sextet2_char (b c : byte) :
  stands_for (b64_char (sextet2 b c)) (sextet2 b c)
  && Byte.eqb
       (byte_of_Z (Z.lor (Z.shiftl (Z.land (bz b / 16) 15) 4)
                     (Z.shiftr (sextet2 b c) 2))) b
  && (Z.land (sextet2 b c) 3 =? Z.land (bz c / 64) 3)%Z = true.
Proof. revert b c. apply for_all_byte_pairs. vm_compute. reflexivity. Qed.

Lemma sextet3_char (c : byte) :
  stands_for (b64_char (sextet3 c)) (sextet3 c)
  && Byte.eqb
       (byte_of_Z (Z.lor (Z.shiftl (Z.land (bz c / 64) 3) 6) (sextet3 c))) c
  = true.
Proof. revert c. apply for_all_bytes. vm_compute. reflexivity. Qed.

Lemma loop_first (a : byte) (s : string) (l : Z) (p : nat) :
  a2b_loop (String (b64_char (sextet0 a)) s) 0 l p = a2b_loop s 1 (sextet0 a) 0.
Proof.
  destruct (stands_for_spec _ _ (sextet0_char a)) as (Ht & Hp & _).
  now rewrite a2b_loop_cons, Hp, Ht.
Qed.

Lemma loop_second (a b : byte) (s : string) (p : nat) :
  a2b_loop (String (b64_char (sextet1 a b)) s) 1 (sextet0 a) p =
  option_map (cons a) (a2b_loop s 2 (Z.land (bz b / 16) 15) 0).
Proof.
  pose proof (sextet1_char a b) as H.
  apply andb_prop in H as [H Hl]. apply andb_prop in H as [Hs Hb].
  destruct (stands_for_spec _ _ Hs) as (Ht & Hp & _).
  apply Byte.byte_dec_bl in Hb. apply Z.eqb_eq in Hl.
  now rewrite a2b_loop_cons, Hp, Ht, Hb, Hl.
Qed.

Lemma loop_third (b c : byte) (s : string) (p : nat) :
  a2b_loop (String (b64_char (sextet2 b c)) s) 2 (Z.land (bz b / 16) 15) p =
  option_map (cons b) (a2b_loop s 3 (Z.land (bz c / 64) 3) 0).
Proof.
  pose proof (sextet2_char b c) as H.
  apply andb_prop in H as [H Hl]. apply andb_prop in H as [Hs Hb].
  destruct (stands_for_spec _ _ Hs) as (Ht & Hp & _).
  apply Byte.byte_dec_bl in Hb. apply Z.eqb_eq in Hl.
  now rewrite a2b_loop_cons, Hp, Ht, Hb, Hl.
Qed.

Lemma loop_fourth (c : byte) (s : string) (p : nat) :
  a2b_loop (String (b64_char (sextet3 c)) s) 3 (Z.land (bz c / 64) 3) p =
  option_map (cons c) (a2b_loop s 0 0 0).
Proof.
  pose proof (sextet3_char c) as H.
  apply andb_prop in H as [Hs Hb].
  destruct (stands_for_spec _ _ Hs) as (Ht & Hp & _).
  apply Byte.byte_dec_bl in Hb.
  now rewrite a2b_loop_cons, Hp, Ht, Hb.
Qed.

Lemma a2b_loop_encode_bounded (n : nat) :
  forall bs, (List.length bs <= n)%nat ->
             a2b_loop (b64encode bs) 0 0 0 = Some bs.
Proof.
  induction n as [|n IH]; intros bs Hn.
  - destruct bs; [reflexivity | simpl in Hn; lia].
  - destruct bs as [|a [|b [|c bs]]]; cbn [b64encode].
    + reflexivity.
    + rewrite loop_first, loop_second. reflexivity.
    + rewrite loop_first, loop_second, loop_third. reflexivity.
    + rewrite loop_first, loop_second, loop_third, loop_fourth.
      rewrite IH by (cbn [List.length] in Hn; lia). reflexivity.
Qed.

Lemma isascii_encode_bounded (n : nat) :
  forall bs, (List.length bs <= n)%nat -> isascii (b64encode bs) = true.
Proof.
  assert (A0 : forall a, isascii_char (b64_char (sextet0 a)) = true)
    by (intros a; apply (stands_for_spec _ _ (sextet0_char a))).
  assert (A1 : forall a b, isascii_char (b64_char (sextet1 a b)) = true).
  { intros a b. pose proof (sextet1_char a b) as H.
    apply andb_prop in H as [H _]. apply andb_prop in H as [H _].
    apply (stands_for_spec _ _ H). }
  assert (A2 : forall a b, isascii_char (b64_char (sextet2 a b)) = true).
  { intros a b. pose proof (sextet2_char a b) as H.
    apply andb_prop in H as [H _]. apply andb_prop in H as [H _].
    apply (stands_for_spec _ _ H). }
  assert (A3 : forall a, isascii_char (b64_char (sextet3 a)) = true).
  { intros a. pose proof (sextet3_char a) as H.
    apply andb_prop in H as [H _]. apply (stands_for_spec _ _ H). }
  induction n as [|n IH]; intros bs Hn.
  - destruct bs; [reflexivity | simpl in Hn; lia].
  - destruct bs as [|a [|b [|c bs]]]; cbn [b64encode isascii].
    + reflexivity.
    + now rewrite A0, A1.
    + now rewrite A0, A1, A2.
    + rewrite A0, A1, A2, A3. cbn [andb].
      apply IH. cbn [List.length] in Hn. lia.
Qed.

Lemma b64decode_encode (bs : list byte) :
  b64decode (b64encode bs) = Ok bs.
Proof.
  unfold b64decode, a2b_base64.
  rewrite (isascii_encode_bounded (List.length bs) bs (le_n _)).
  now rewrite (a2b_loop_encode_bounded (List.length bs) bs (le_n _)).
Qed.

End Base64RoundTrip.

(** X3.  Percent-encoding round trip: whatever the header, as long as it
    carries no base64 flag, a payload that is the percent-encoding of a byte
    sequence (unreserved characters literal, every other byte as [%XX])
    decodes to exactly that byte sequence. *)
Theorem percent_round_trip (meta : string) (bs : list byte) :
  contains "," meta = false ->
  flag_segment meta = false ->
  exists m a,
    parse_data_uri ("data:" ++ meta ++ "," ++ percent_encode bs) = Ok (m, a, bs).
Proof.
  intros Hm Hf.
  rewrite parse_data_uri_sections, decode_sections_flag by exact Hm.
  rewrite Hf. destruct (pop_mime_type (remaining_segments meta)) as [m parts].
  cbn [decode_content bind].
  rewrite unquote_to_bytes_scan, percent_scan_encode. eauto.
Qed.

Lemma percent_round_trip_witness :
  exists m a,
    parse_data_uri "data:text/plain;charset=utf-8,a%2Cb%20%25"
    = Ok (m, a, list_byte_of_string "a,b %").
Proof.
  exact (percent_round_trip "text/plain;charset=utf-8"
           (list_byte_of_string "a,b %") eq_refl eq_refl).
Defined.

(** X4.  Base64 round trip: with the base64 flag set, a payload that is the
    standard padded base64 encoding of a byte sequence decodes to exactly
    that byte sequence, for every length of the sequence. *)
Theorem base64_round_trip (meta : string) (bs : list byte) :
  contains "," meta = false ->
  flag_segment meta = true ->
  exists m a,
    parse_data_uri ("data:" ++ meta ++ "," ++ b64encode bs) = Ok (m, a, bs).
Proof.
  intros Hm Hf.
  rewrite parse_data_uri_sections, decode_sections_flag by exact Hm.
  rewrite Hf. destruct (pop_mime_type (remaining_segments meta)) as [m parts].
  cbn [decode_content]. rewrite b64decode_encode. cbn [bind]. eauto.
Qed.

Lemma base64_round_trip_witness :
  exists m a,
    parse_data_uri "data:image/png;base64,SGVsbG8sIHdvcmxkIQ=="
    = Ok (m, a, list_byte_of_string "Hello, world!").
Proof.
  exact (base64_round_trip "image/png;base64"
           (list_byte_of_string "Hello, world!") eq_refl eq_refl).
Defined.

(** ** What the header components can contain *)

Section HeaderFacts.

Lemma split_pieces_free (c : ascii) (s x : string) :
  In x (split c s) -> contains c x = false.
Proof.
  revert x. induction s as [|a s IH]; intros x; cbn [split].
  - intros [<-|[]]. reflexivity.
  - destruct (Ascii.eqb a c) eqn:Ha.
    + intros [<-|H]; [reflexivity | now apply IH].
    + destruct (split c s) as [|h t] eqn:E; [now apply split_not_nil in E|].
      intros [<-|H].
      * cbn [contains]. rewrite Ha. apply IH. now left.
      * apply IH. now right.
Qed.

Lemma split_pieces_keep_absence (c d : ascii) (s x : string) :
  contains d s = false -> In x (split c s) -> contains d x = false.
Proof.
  revert x. induction s as [|a s IH]; intros x; cbn [split contains].
  - intros _ [<-|[]]. reflexivity.
  - intros H. apply orb_false_elim in H as [Ha Hs].
    destruct (Ascii.eqb a c).
    + intros [<-|H]; [reflexivity | now apply IH].
    + destruct (split c s) as [|h t] eqn:E; [now apply split_not_nil in E|].
      intros [<-|H].
      * cbn [contains]. rewrite Ha. apply IH; [exact Hs | now left].
      * apply IH; [exact Hs | now right].
Qed.

Lemma remaining_segments_subset (meta x : string) :
  In x (remaining_segments meta) -> In x (segments meta).
Proof.
  unfold remaining_segments.
  destruct (flag_segment meta); [apply removelast_in | auto].
Qed.

Lemma pop_mime_type_parts (parts rest : list string) (m : option string) :
  pop_mime_type parts = (m, rest) ->
  (forall t, m = Some t -> t <> "" /\ In t parts)
  /\ (forall x, In x rest -> In x parts).
Proof.
  unfold pop_mime_type. destruct parts as [|p0 l].
  - intros [= <- <-]. split; [discriminate | auto].
  - destruct (0 <? String.length p0)%nat eqn:Hl; intros [= <- <-].
    + split; [|intros x H; now right].
      intros t [= <-]. split; [|now left].
      intros ->. discriminate.
    + split; [discriminate | auto].
Qed.

Lemma key_of_chars (d : ascii) (part : string) :
  contains d part = false -> contains d (key_of part) = false.
Proof.
  induction part as [|a part IH]; cbn [contains key_of]; [auto|].
  intros H. apply orb_false_elim in H as [Ha Hp].
  destruct (Ascii.eqb a "="); [reflexivity|].
  cbn [contains]. now rewrite Ha, IH.
Qed.

Lemma value_of_chars (d : ascii) (part : string) :
  contains d part = false -> contains d (value_of part) = false.
Proof.
  induction part as [|a part IH]; cbn [contains value_of]; [auto|].
  intros H. apply orb_false_elim in H as [Ha Hp].
  destruct (Ascii.eqb a "="); auto.
Qed.

Lemma key_of_no_equals (part : string) : contains "=" (key_of part) = false.
Proof.
  induction part as [|a part IH]; cbn [key_of]; [reflexivity|].
  destruct (Ascii.eqb a "=") eqn:Ha; [reflexivity|].
  cbn [contains]. now rewrite Ha.
Qed.

Lemma segment_entry_chars (part k v : string) :
  segment_entry part = Some (k, v) ->
  contains "=" k = false
  /\ (forall d, contains d part = false ->
                contains d k = false /\ contains d v = false).
Proof.
  unfold segment_entry. destruct (contains "=" part) eqn:He.
  - intros [= <- <-]. split; [apply key_of_no_equals|].
    intros d Hd. split; [now apply key_of_chars | now apply value_of_chars].
  - destruct (String.eqb part ""); [discriminate|].
    intros [= <- <-]. split; [exact He|]. now split.
Qed.

Lemma entries_from_parts (parts : list string) (e : string * string) :
  In e (entries parts) ->
  exists part, In part parts /\ segment_entry part = Some e.
Proof.
  induction parts as [|p parts IH]; cbn [entries]; [contradiction|].
  destruct (segment_entry p) as [e'|] eqn:E.
  - intros [<-|H].
    + exists p. split; [now left | exact E].
    + destruct (IH H) as (q & Hq & Eq). exists q. split; [now right | exact Eq].
  - intros H. destruct (IH H) as (q & Hq & Eq).
    exists q. split; [now right | exact Eq].
Qed.

Lemma set_members (k v : string) (d : PyDict.dict) (e : string * string) :
  In e (PyDict.set k v d) -> e = (k, v) \/ In e d.
Proof.
  induction d as [|[k0 v0] d IH]; cbn [PyDict.set].
  - intros [<-|[]]. now left.
  - destruct (String.eqb_spec k0 k) as [->|_].
    + intros [<-|H]; [now left | right; now right].
    + intros [<-|H]; [right; now left|].
      destruct (IH H) as [->|H']; [now left | right; now right].
Qed.

Lemma fold_members (es : list (string * string)) (e : string * string) :
  forall d, In e (fold_left set_entry es d) -> In e es \/ In e d.
Proof.
  induction es as [|[k0 v0] es IH]; intros d; cbn [fold_left]; [auto|].
  intros H. destruct (IH _ H) as [H'|H']; [left; now right|].
  unfold set_entry in H'. cbn [fst snd] in H'.
  destruct (set_members _ _ _ _ H') as [->|H'']; [left; now left | now right].
Qed.

Lemma first_occurrences_nodup (ks : list string) : NoDup (first_occurrences ks).
Proof.
  induction ks as [|k ks IH]; cbn [first_occurrences]; constructor.
  - intros H. apply filter_In in H as [_ H].
    now rewrite String.eqb_refl in H.
  - now apply NoDup_filter.
Qed.

(** A successful parse comes from a header without comma. *)
Lemma parse_data_uri_ok_sections
  (uri : string) (r : option string * PyDict.dict * list byte) :
  parse_data_uri uri = Ok r ->
  exists meta data,
    uri = "data:" ++ meta ++ "," ++ data /\ contains "," meta = false
    /\ decode_sections meta data = Ok r.
Proof.
  intros H.
  destruct (startswith "data:" uri) eqn:Hp.
  - pose proof (startswith_inv _ _ Hp) as E. cbn [String.length] in E.
    set (rest := slice_from 5 uri) in E.
    destruct (contains "," rest) eqn:Hc.
    + apply contains_first in Hc as (h & t & Hr & Hh).
      exists h, t. rewrite Hr in E.
      split; [exact E | split; [exact Hh|]].
      rewrite <- (parse_data_uri_sections h t Hh).
      change (h ++ "," ++ t) with (h ++ String "," t). now rewrite <- E.
    + rewrite E, parse_data_uri_no_comma in H by exact Hc. discriminate.
  - unfold parse_data_uri in H. rewrite Hp in H. discriminate.
Qed.

End HeaderFacts.

(** X5.  In every result of [parse_data_uri] the MIME type, when present,
    is non-empty and contains neither [;] nor [,]; no attribute key contains
    [=], [;] or [,]; no attribute value contains [;] or [,]; and no key
    occurs twice in the attribute mapping. *)
Theorem header_components_clean
  (uri : string) (m : option string) (a : PyDict.dict) (c : list byte) :
  parse_data_uri uri = Ok (m, a, c) ->
  (forall t, m = Some t ->
     t <> "" /\ contains ";" t = false /\ contains "," t = false)
  /\ (forall k v, In (k, v) a ->
        contains "=" k = false
        /\ contains ";" k = false /\ contains "," k = false
        /\ contains ";" v = false /\ contains "," v = false)
  /\ NoDup (PyDict.keys a).
Proof.
  intros H.
  apply parse_data_uri_ok_sections in H as (meta & data & _ & Hm & H).
  rewrite decode_sections_flag in H.
  destruct (pop_mime_type (remaining_segments meta)) as [m' parts] eqn:Ep.
  destruct (decode_content _ _) as [c'|]; [|discriminate].
  cbn [bind] in H. inversion H; subst m' a c'. clear H.
  destruct (pop_mime_type_parts _ _ _ Ep) as [Pm Pr].
  assert (Seg : forall x, In x (remaining_segments meta) ->
                          contains ";" x = false /\ contains "," x = false).
  { intros x Hx. apply remaining_segments_subset in Hx.
    split; [now apply (split_pieces_free ";" meta)|].
    now apply (split_pieces_keep_absence ";" "," meta). }
  split; [|split].
  - intros t Ht. destruct (Pm t Ht) as [Hn Hin].
    destruct (Seg t Hin). auto.
  - intros k v Hin. unfold collect_attributes in Hin.
    rewrite collect_entries in Hin.
    apply fold_members in Hin as [Hin|[]].
    apply entries_from_parts in Hin as (part & Hp & He).
    destruct (Seg part (Pr part Hp)) as [S1 S2].
    destruct (segment_entry_chars part k v He) as [K1 K2].
    destruct (K2 ";"%char S1), (K2 ","%char S2). auto.
  - rewrite collect_attributes_keys. apply first_occurrences_nodup.
Qed.

Lemma header_components_clean_witness :
  NoDup (PyDict.keys [("a", "3"); ("b", "")]).
Proof.
  exact (proj2 (proj2 (header_components_clean
                         "data:text/plain;a=1;;b;a=3,x"
                         (Some "text/plain") [("a", "3"); ("b", "")]
                         (list_byte_of_string "x") eq_refl))).
Defined.

(** ** How [file_uri_to_path] reads its input *)

Section CleaningFacts.

Import UrlParse.

Lemma remove_char_app (c : ascii) (s t : string) :
  remove_char c (s ++ t) = remove_char c s ++ remove_char c t.
Proof.
  induction s as [|a s IH]; cbn [append remove_char]; [reflexivity|].
  destruct (Ascii.eqb a c); [exact IH | cbn [append]; now rewrite IH].
Qed.

Lemma remove_unsafe_app (s t : string) :
  remove_unsafe (s ++ t) = remove_unsafe s ++ remove_unsafe t.
Proof. unfold remove_unsafe. now rewrite !remove_char_app. Qed.

Lemma unsafe_char_cases (c : ascii) :
  is_unsafe_char c = true -> c = "009"%char \/ c = "013"%char \/ c = "010"%char.
Proof.
  unfold is_unsafe_char. intros H.
  apply orb_prop in H as [H|H]; [apply orb_prop in H as [H|H]|];
    apply Ascii.eqb_eq in H; auto.
Qed.

Lemma remove_unsafe_drops (c : ascii) (t : string) :
  is_unsafe_char c = true -> remove_unsafe (String c t) = remove_unsafe t.
Proof.
  intros H. destruct (unsafe_char_cases c H) as [->|[->| ->]]; reflexivity.
Qed.

Lemma unsafe_is_c0 (c : ascii) :
  is_unsafe_char c = true -> is_c0_control_or_space c = true.
Proof.
  intros H. destruct (unsafe_char_cases c H) as [->|[->| ->]]; reflexivity.
Qed.

Lemma cleaned_insert (a b : string) (c : ascii) :
  is_unsafe_char c = true -> cleaned (a ++ String c b) = cleaned (a ++ b).
Proof.
  intros Hc. unfold cleaned.
  induction a as [|x a IH]; cbn [append lstrip_c0].
  - now rewrite (unsafe_is_c0 c Hc).
  - destruct (is_c0_control_or_space x); [exact IH|].
    change (String x (a ++ String c b)) with (String x a ++ String c b).
    change (String x (a ++ b)) with (String x a ++ b).
    now rewrite !remove_unsafe_app, (remove_unsafe_drops c b Hc).
Qed.

Lemma cleaned_leading (ws uri : string) :
  all_c0_or_space ws = true -> cleaned (ws ++ uri) = cleaned uri.
Proof.
  unfold cleaned. induction ws as [|x ws IH]; cbn [append all_c0_or_space];
    [reflexivity|].
  intros H. apply andb_prop in H as [Hx Hw].
  cbn [lstrip_c0]. rewrite Hx. now apply IH.
Qed.

Lemma file_uri_to_path_cleaned (env : platform) (u1 u2 : string) :
  cleaned u1 = cleaned u2 ->
  file_uri_to_path env u1 = file_uri_to_path env u2.
Proof.
  intros H. unfold file_uri_to_path.
  rewrite (urlparse_same_scheme env u1 u2); [reflexivity|].
  now rewrite H.
Qed.

Lemma find_absent (c : ascii) (s : string) :
  contains c s = false -> find c s = (-1)%Z.
Proof.
  induction s as [|a s IH]; cbn [contains find]; [reflexivity|].
  intros H. apply orb_false_elim in H as [Ha Hs].
  now rewrite Ha, (IH Hs).
Qed.

Lemma remove_char_absence (c d : ascii) (s : string) :
  contains d s = false -> contains d (remove_char c s) = false.
Proof.
  induction s as [|a s IH]; cbn [contains remove_char]; [auto|].
  intros H. apply orb_false_elim in H as [Ha Hs].
  destruct (Ascii.eqb a c); [now apply IH|].
  cbn [contains]. now rewrite Ha, IH.
Qed.




End CleaningFacts.



(** X7.  Tabs, carriage returns and line feeds are ignored wherever they
    occur in the input, and so are control characters and spaces in front of
    it: inserting them does not change the result. *)
Theorem unsafe_characters_ignored (env : platform) :
  (forall a b c,
     is_unsafe_char c = true ->
     file_uri_to_path env (a ++ String c b) = file_uri_to_path env (a ++ b))
  /\ (forall ws uri,
        all_c0_or_space ws = true ->
        file_uri_to_path env (ws ++ uri) = file_uri_to_path env uri).
Proof.
  split.
  - intros a b c Hc. apply file_uri_to_path_cleaned. now apply cleaned_insert.
  - intros ws uri Hw. apply file_uri_to_path_cleaned. now apply cleaned_leading.
Qed.

Lemma unsafe_characters_ignored_witness :
  file_uri_to_path sample_platform ("file://ser" ++ String "009" "ver/x")
  = Ok (Some "server", "/x").
Proof.
  etransitivity;
    [exact (proj1 (unsafe_characters_ignored sample_platform)
              "file://ser" "ver/x" "009"%char eq_refl)
    | reflexivity].
Defined.

(** ** The decoder in terms of the URI grammar *)

Section GrammarFacts.

Import UrlParse.

Variable env : platform.

Lemma partition_before_query (u : string) :
  fst (fst (partition "?" (fst (fst (partition "#" u)))))
  = until_query_or_fragment u.
Proof.
  induction u as [|a u IH]; [reflexivity|].
  cbn [partition until_query_or_fragment].
  destruct (Ascii.eqb a "#") eqn:Hh.
  - now rewrite orb_true_r.
  - rewrite orb_false_r.
    destruct (partition "#" u) as [[h m] t]. cbn [fst partition].
    destruct (Ascii.eqb a "?"); [reflexivity|].
    cbn [fst] in IH.
    destruct (partition "?" h) as [[h' m'] t']. cbn [fst] in *.
    now rewrite IH.
Qed.

Lemma split1_before (c : ascii) (u : string) :
  fst (if contains c u then split1 c u else (u, "")) = fst (fst (partition c u)).
Proof.
  destruct (contains c u) eqn:H.
  - unfold split1. now destruct (partition c u) as [[h m] t].
  - now rewrite partition_absent.
Qed.

(** The last section of [urlsplit]: fragment, query and the NFKC check. *)
Lemma urlsplit_path_section (sch nl url : string) :
  (let '(url, fragment) :=
     if contains "#" url then split1 "#" url else (url, EmptyString) in
   let '(url, query) :=
     if contains "?" url then split1 "?" url else (url, EmptyString) in
   if checknetloc env nl then Ok (sch, nl, url, query, fragment)
   else Err InvalidURL)
  = if checknetloc env nl
    then Ok (sch, nl, until_query_or_fragment url,
             snd (if contains "?" (fst (fst (partition "#" url)))
                  then split1 "?" (fst (fst (partition "#" url)))
                  else (fst (fst (partition "#" url)), "")),
             snd (if contains "#" url then split1 "#" url else (url, "")))
    else Err InvalidURL.
Proof.
  rewrite <- partition_before_query.
  rewrite <- (split1_before "#" url).
  destruct (if contains "#" url then _ else _) as [u1 fr]. cbn [fst snd].
  rewrite <- (split1_before "?" u1).
  destruct (if contains "?" u1 then _ else _) as [u2 qu]. reflexivity.
Qed.

Lemma urlsplit_normal_form (uri : string) :
  (netloc_accepted env (parsed_netloc uri) = false ->
   urlsplit env uri = Err InvalidURL)
  /\ (netloc_accepted env (parsed_netloc uri) = true ->
      exists q f,
        urlsplit env uri =
        Ok (parsed_scheme uri, parsed_netloc uri,
            path_text (after_scheme uri), q, f)).
Proof.
  unfold urlsplit, parsed_scheme, parsed_netloc, after_scheme, path_text,
    netloc_accepted.
  fold (cleaned uri).
  destruct (split_scheme (cleaned uri)) as [sch0 rest]. cbn [fst snd].
  rewrite urlsplit_netloc_section.
  destruct (authority rest) as [a|].
  - destruct ((contains "[" a && negb (contains "]" a))
              || (contains "]" a && negb (contains "[" a)));
      [split; [reflexivity | discriminate]|].
    destruct (contains "[" a && contains "]" a
              && negb (check_bracketed_netloc env a));
      [split; [reflexivity | discriminate]|].
    cbn [negb andb bind]. rewrite urlsplit_path_section.
    destruct (checknetloc env a); split;
      try discriminate; try reflexivity; eauto.
  - cbn [contains negb andb orb bind]. rewrite urlsplit_path_section.
    destruct (checknetloc env ""); split;
      try discriminate; try reflexivity; eauto.
Qed.

Lemma file_not_in_uses_params :
  existsb (String.eqb "file") uses_params = false.
Proof. reflexivity. Qed.

(** [file_uri_to_path] in terms of the scheme, the authority and the path
    text of the input. *)
Lemma file_uri_to_path_normal_form (uri : string) :
  file_uri_to_path env uri =
  if netloc_accepted env (parsed_netloc uri) then
    if String.eqb (parsed_scheme uri) "file" then
      Ok (if String.eqb (parsed_netloc uri) "" then None
          else Some (parsed_netloc uri),
          PosixPath.abspath env
            (UnquoteStr.url2pathname (path_text (after_scheme uri))))
    else Err InvalidScheme
  else Err InvalidURL.
Proof.
  destruct (urlsplit_normal_form uri) as [Hf Ht].
  unfold file_uri_to_path, urlparse.
  destruct (netloc_accepted env (parsed_netloc uri)).
  - destruct (Ht eq_refl) as (q & f & ->). cbn [bind].
    destruct (String.eqb_spec (parsed_scheme uri) "file") as [Hs|Hs].
    + rewrite Hs, file_not_in_uses_params. cbn [andb bind scheme netloc path].
      cbn [String.eqb Ascii.eqb Bool.eqb andb negb].
      now destruct (String.eqb (parsed_netloc uri) "").
    + destruct (_ && _); [destruct (splitparams _)|];
        cbn [bind scheme]; apply String.eqb_neq in Hs; now rewrite Hs.
  - now rewrite (Hf eq_refl).
Qed.

End GrammarFacts.

(** X8.  [file_uri_to_path] is determined by three pieces of the input as
    the URL parser reads it: the scheme before the first colon, the
    authority between a leading [//] and the next [/], [?] or [#], and the
    path text after the authority up to the first [?] or [#].  It fails in
    the URL parser when the authority is not accepted, with [InvalidScheme]
    when the scheme is not [file], and otherwise returns the authority (when
    not empty) with the normalized percent-decoded path. *)
Theorem decoder_follows_grammar (env : platform) (uri : string) :
  file_uri_to_path env uri =
  if netloc_accepted env (parsed_netloc uri) then
    if String.eqb (parsed_scheme uri) "file" then
      Ok (if String.eqb (parsed_netloc uri) "" then None
          else Some (parsed_netloc uri),
          PosixPath.abspath env
            (UnquoteStr.url2pathname (path_text (after_scheme uri))))
    else Err InvalidScheme
  else Err InvalidURL.
Proof. apply file_uri_to_path_normal_form. Qed.

(** ** Query and fragment *)

Section QueryFragmentFacts.

Import UrlParse.

Variable c : ascii.
Hypothesis c_mark : is_query_or_fragment_mark c = true.

Lemma mark_cases : c = "?"%char \/ c = "#"%char.
Proof.
  unfold is_query_or_fragment_mark in c_mark.
  apply orb_prop in c_mark as [H|H]; apply Ascii.eqb_eq in H; auto.
Qed.

Lemma mark_properties :
  is_c0_control_or_space c = false /\ in_scheme_chars c = false
  /\ is_authority_end c = true /\ Ascii.eqb c ":" = false
  /\ Ascii.eqb c "/" = false
  /\ (forall t, remove_unsafe (String c t) = String c (remove_unsafe t)).
Proof. destruct mark_cases as [-> | ->]; repeat split. Qed.

Lemma lstrip_app_mark (u t : string) :
  lstrip_c0 (u ++ String c t) = lstrip_c0 u ++ String c t.
Proof.
  destruct mark_properties as (Hc & _).
  induction u as [|a u IH]; cbn [append lstrip_c0].
  - now rewrite Hc.
  - now destruct (is_c0_control_or_space a).
Qed.

Lemma cleaned_app_mark (u t : string) :
  cleaned (u ++ String c t) = cleaned u ++ String c (remove_unsafe t).
Proof.
  destruct mark_properties as (_ & _ & _ & _ & _ & Hr).
  unfold cleaned. now rewrite lstrip_app_mark, remove_unsafe_app, Hr.
Qed.

Lemma find_app_found (d : ascii) (v x : string) :
  contains d v = true ->
  find d (v ++ x) = find d v
  /\ (0 <= find d v < Z.of_nat (String.length v))%Z.
Proof.
  induction v as [|a v IH]; cbn [contains append find String.length];
    [discriminate|].
  destruct (Ascii.eqb a d); cbn [orb]; [intros _; lia|].
  intros H. destruct (IH H) as [-> B].
  destruct (Z.ltb_spec (find d v) 0); lia.
Qed.

Lemma find_app_absent (d : ascii) (v x : string) :
  contains d v = false ->
  find d (v ++ x) =
  if (find d x <? 0)%Z then (-1)%Z
  else (find d x + Z.of_nat (String.length v))%Z.
Proof.
  induction v as [|a v IH]; cbn [contains append find String.length].
  - intros _. pose proof (find_lower_bound d x).
    destruct (Z.ltb_spec (find d x) 0); lia.
  - intros H. apply orb_false_elim in H as [Ha Hv].
    rewrite Ha, (IH Hv).
    pose proof (find_lower_bound d x).
    destruct (Z.ltb_spec (find d x) 0).
    + reflexivity.
    + destruct (Z.ltb_spec (find d x + Z.of_nat (String.length v)) 0); lia.
Qed.

Lemma slice_to_within (n : nat) (v x : string) :
  (n <= String.length v)%nat -> slice_to n (v ++ x) = slice_to n v.
Proof.
  revert v. induction n as [|n IH]; intros v H; [reflexivity|].
  destruct v as [|a v]; [simpl in H; lia|].
  cbn [append slice_to]. f_equal. apply IH. simpl in H. lia.
Qed.

Lemma slice_from_within (n : nat) (v x : string) :
  (n <= String.length v)%nat -> slice_from n (v ++ x) = slice_from n v ++ x.
Proof.
  revert v. induction n as [|n IH]; intros v H; [reflexivity|].
  destruct v as [|a v]; [simpl in H; lia|].
  cbn [append slice_from]. apply IH. simpl in H. lia.
Qed.

Lemma slice_to_beyond (k : nat) (v x : string) :
  slice_to (String.length v + k) (v ++ x) = v ++ slice_to k x.
Proof.
  induction v as [|a v IH]; [reflexivity|].
  cbn [String.length Nat.add append slice_to]. now rewrite IH.
Qed.

Lemma all_scheme_chars_app (v x : string) :
  all_scheme_chars (v ++ x) = all_scheme_chars v && all_scheme_chars x.
Proof.
  induction v as [|a v IH]; cbn [append all_scheme_chars]; [reflexivity|].
  now rewrite IH, andb_assoc.
Qed.

Lemma split_scheme_app_mark (v t : string) :
  split_scheme (v ++ String c t) =
  (fst (split_scheme v), snd (split_scheme v) ++ String c t).
Proof.
  destruct mark_properties as (_ & Hs & _ & Hcolon & _).
  unfold split_scheme.
  destruct (contains ":" v) eqn:Hv.
  - destruct (find_app_found ":" v (String c t) Hv) as [-> B].
    assert (Hne : first_is_alpha (v ++ String c t) = first_is_alpha v)
      by (destruct v; [discriminate | reflexivity]).
    rewrite Hne, slice_to_within by lia.
    destruct (_ && _); cbn [fst snd]; [|reflexivity].
    now rewrite slice_from_within by lia.
  - rewrite (find_absent ":" v Hv). cbn [Z.ltb andb fst snd].
    rewrite (find_app_absent ":" v (String c t) Hv).
    cbn [find]. rewrite Hcolon.
    pose proof (find_lower_bound ":" t) as Bt.
    destruct (Z.ltb_spec (find ":" t) 0) as [Hlt|Hge];
      cbn [Z.ltb andb]; [reflexivity|].
    replace (if (find ":" t + 1 <? 0)%Z then _ else _)
      with (find ":" t + 1 + Z.of_nat (String.length v))%Z
      by (destruct (Z.ltb_spec (find ":" t + 1) 0); lia).
    replace (Z.to_nat (find ":" t + 1 + Z.of_nat (String.length v)))
      with (String.length v + S (Z.to_nat (find ":" t)))%nat by lia.
    rewrite slice_to_beyond. cbn [slice_to].
    rewrite all_scheme_chars_app. cbn [all_scheme_chars].
    rewrite Hs. cbn [andb]. now rewrite !andb_false_r.
Qed.

Lemma startswith_slashes_app_mark (r t : string) :
  startswith "//" (r ++ String c t) = startswith "//" r.
Proof.
  destruct mark_properties as (_ & _ & _ & _ & Hslash & _).
  unfold startswith.
  destruct r as [|x [|y r]]; cbn [append].
  - rewrite prefix_cons, (Ascii.eqb_sym "/" c), Hslash. reflexivity.
  - rewrite !prefix_cons, (Ascii.eqb_sym "/" c), Hslash.
    now destruct (Ascii.eqb "/" x).
  - rewrite !prefix_cons.
    destruct (Ascii.eqb "/" x); [|reflexivity].
    destruct (Ascii.eqb "/" y); [|reflexivity].
    now destruct r.
Qed.

Lemma authority_text_app_mark (r t : string) :
  authority_text (r ++ String c t) = authority_text r.
Proof.
  destruct mark_properties as (_ & _ & He & _).
  induction r as [|a r IH]; cbn [append authority_text].
  - now rewrite He.
  - destruct (is_authority_end a); [reflexivity | now rewrite IH].
Qed.

Lemma after_authority_app_mark (r t : string) :
  after_authority (r ++ String c t) = after_authority r ++ String c t.
Proof.
  destruct mark_properties as (_ & _ & He & _).
  induction r as [|a r IH]; cbn [append after_authority].
  - now rewrite He.
  - destruct (is_authority_end a); [reflexivity | exact IH].
Qed.

Lemma until_app_mark (y t : string) :
  until_query_or_fragment (y ++ String c t) = until_query_or_fragment y.
Proof.
  induction y as [|a y IH]; cbn [append until_query_or_fragment].
  - unfold is_query_or_fragment_mark in c_mark. now rewrite c_mark.
  - destruct (_ || _); [reflexivity | now rewrite IH].
Qed.

Lemma grammar_app_mark (u t : string) :
  parsed_scheme (u ++ String c t) = parsed_scheme u
  /\ parsed_netloc (u ++ String c t) = parsed_netloc u
  /\ path_text (after_scheme (u ++ String c t)) = path_text (after_scheme u).
Proof.
  unfold parsed_scheme, parsed_netloc, path_text, after_scheme, authority.
  rewrite cleaned_app_mark, split_scheme_app_mark. cbn [fst snd].
  set (r := snd (split_scheme (cleaned u))).
  rewrite startswith_slashes_app_mark.
  split; [reflexivity|].
  destruct (startswith "//" r) eqn:Hr.
  - assert (L : (2 <= String.length r)%nat).
    { destruct r as [|x [|y r']]; try discriminate; [|simpl; lia].
      unfold startswith in Hr. rewrite prefix_cons in Hr.
      destruct (Ascii.eqb "/" x); discriminate. }
    rewrite slice_from_within by exact L.
    rewrite authority_text_app_mark, after_authority_app_mark.
    split; [reflexivity | apply until_app_mark].
  - split; [reflexivity | apply until_app_mark].
Qed.

End QueryFragmentFacts.

(** X9.  A query or a fragment does not take part in the decoding: text
    appended to any input after a [?] or a [#] leaves the result
    unchanged. *)
Theorem query_and_fragment_ignored
  (env : platform) (uri tail : string) (c : ascii) :
  is_query_or_fragment_mark c = true ->
  file_uri_to_path env (uri ++ String c tail) = file_uri_to_path env uri.
Proof.
  intros Hc.
  destruct (grammar_app_mark c Hc uri tail) as (Hs & Hn & Hp).
  rewrite (file_uri_to_path_normal_form env (uri ++ String c tail)).
  rewrite (file_uri_to_path_normal_form env uri).
  now rewrite Hs, Hn, Hp.
Qed.

Lemma query_and_fragment_ignored_witness :
  file_uri_to_path sample_platform "file:///tmp/a.txt?rev=2#top"
  = Ok (None, "/tmp/a.txt").
Proof.
  etransitivity;
    [exact (query_and_fragment_ignored sample_platform "file:///tmp/a.txt"
              "rev=2#top" "?"%char eq_refl)
    | reflexivity].
Defined.

(** ** What a result can contain *)

Section ResultFacts.

Import UrlParse PosixPath UnquoteStr.

Lemma remove_char_removes (c : ascii) (s : string) :
  contains c (remove_char c s) = false.
Proof.
  induction s as [|a s IH]; cbn [remove_char]; [reflexivity|].
  destruct (Ascii.eqb a c) eqn:Ha; [exact IH|].
  cbn [contains]. now rewrite Ha.
Qed.

Lemma cleaned_no_unsafe (c : ascii) (uri : string) :
  is_unsafe_char c = true -> contains c (cleaned uri) = false.
Proof.
  intros H. unfold cleaned, remove_unsafe.
  destruct (unsafe_char_cases c H) as [->|[->| ->]].
  - do 2 apply remove_char_absence. apply remove_char_removes.
  - apply remove_char_absence. apply remove_char_removes.
  - apply remove_char_removes.
Qed.

Lemma slice_from_absence (d : ascii) (n : nat) (s : string) :
  contains d s = false -> contains d (slice_from n s) = false.
Proof.
  revert s. induction n as [|n IH]; intros s H; [exact H|].
  destruct s as [|a s]; [reflexivity|].
  cbn [slice_from]. cbn [contains] in H.
  apply orb_false_elim in H as [_ H]. now apply IH.
Qed.

Lemma after_scheme_absence (d : ascii) (uri : string) :
  contains d (cleaned uri) = false -> contains d (after_scheme uri) = false.
Proof.
  intros H. unfold after_scheme, split_scheme.
  destruct (_ && _); cbn [snd]; [now apply slice_from_absence | exact H].
Qed.

Lemma authority_text_absence (d : ascii) (r : string) :
  contains d r = false -> contains d (authority_text r) = false.
Proof.
  induction r as [|a r IH]; cbn [contains authority_text]; [auto|].
  intros H. apply orb_false_elim in H as [Ha Hr].
  destruct (is_authority_end a); [reflexivity|].
  cbn [contains]. now rewrite Ha, IH.
Qed.

Lemma authority_text_no_end (d : ascii) (r : string) :
  is_authority_end d = true -> contains d (authority_text r) = false.
Proof.
  intros Hd. induction r as [|a r IH]; cbn [authority_text]; [reflexivity|].
  destruct (is_authority_end a) eqn:Ha; [reflexivity|].
  cbn [contains]. rewrite IH, orb_false_r.
  destruct (Ascii.eqb_spec a d) as [->|]; [congruence | reflexivity].
Qed.

Lemma parsed_netloc_chars (uri : string) (d : ascii) :
  is_authority_end d = true \/ is_unsafe_char d = true ->
  contains d (parsed_netloc uri) = false.
Proof.
  intros H. unfold parsed_netloc, authority.
  destruct (startswith "//" (after_scheme uri)); [|reflexivity].
  destruct H as [H|H].
  - now apply authority_text_no_end.
  - apply authority_text_absence, slice_from_absence, after_scheme_absence.
    now apply cleaned_no_unsafe.
Qed.

(** *** Normalized paths are fixed points *)

Lemma split_piece (c : ascii) (a b : string) :
  contains c a = false -> split c (a ++ String c b) = a :: split c b.
Proof.
  induction a as [|x a IH]; cbn [contains append split]; intros H.
  - now rewrite Ascii.eqb_refl.
  - apply orb_false_elim in H as [Hx Ha]. now rewrite Hx, (IH Ha).
Qed.

Lemma split_join (cs : list string) :
  Forall slash_free cs -> cs <> [] -> split "/" (join "/" cs) = cs.
Proof.
  induction cs as [|x cs IH]; [contradiction|].
  intros H _. inversion H as [|? ? Hx Hcs]; subst.
  destruct cs as [|y cs].
  - cbn [join]. now apply split_absent.
  - change (join "/" (x :: y :: cs)) with (x ++ String "/" (join "/" (y :: cs))).
    rewrite split_piece by exact Hx.
    f_equal. apply IH; [exact Hcs | discriminate].
Qed.

Lemma collapse_onto_subset (comps : list string) :
  forall stack x,
    In x (collapse_onto stack comps) -> In x stack \/ In x comps.
Proof.
  induction comps as [|comp comps IH]; intros stack x; cbn [collapse_onto].
  - intros H. left. now apply in_rev.
  - destruct (_ || _).
    + intros H. destruct (IH _ _ H); [now left | right; now right].
    + destruct (String.eqb comp "..").
      * intros H. destruct (IH _ _ H) as [H'|H']; [|right; now right].
        left. destruct stack; [contradiction | now right].
      * intros H. destruct (IH _ _ H) as [[<-|H']|H'];
          [right; now left | now left | right; now right].
Qed.

Lemma collapse_onto_plain_list (comps : list string) :
  Forall plain_component comps ->
  forall stack, collapse_onto stack comps = (rev stack ++ comps)%list.
Proof.
  induction comps as [|comp comps IH]; intros H stack; cbn [collapse_onto].
  - now rewrite app_nil_r.
  - inversion H as [|? ? (H1 & H2 & H3) Hr]; subst.
    apply String.eqb_neq in H1, H2, H3. rewrite H1, H2, H3. cbn [orb].
    rewrite (IH Hr). cbn [rev]. now rewrite <- app_assoc.
Qed.

Lemma join_not_absolute (cs : list string) :
  Forall plain_component cs -> Forall slash_free cs ->
  startswith "/" (join "/" cs) = false.
Proof.
  intros Hp Hs. destruct cs as [|x cs]; [reflexivity|].
  inversion Hp as [|? ? (Hx & _) _]; subst.
  inversion Hs as [|? ? Hf _]; subst.
  destruct x as [|a x]; [contradiction|].
  unfold slash_free in Hf. cbn [contains] in Hf.
  apply orb_false_elim in Hf as [Ha _].
  unfold startswith.
  destruct cs; cbn [join append]; rewrite prefix_cons, (Ascii.eqb_sym "/" a), Ha;
    reflexivity.
Qed.

Lemma startswith_cons_slash (s : string) :
  startswith "/" (String "/" s) = true.
Proof. unfold startswith. rewrite prefix_cons. now destruct s. Qed.

Lemma startswith_two (p s : string) (a : ascii) :
  startswith (String a p) (String a s) = startswith p s.
Proof. unfold startswith. now rewrite prefix_cons, Ascii.eqb_refl. Qed.

Lemma normal_path_fixed (k : nat) (cs : list string) :
  k = 1%nat \/ k = 2%nat ->
  Forall plain_component cs -> Forall slash_free cs ->
  normpath (repeat_sep k ++ join "/" cs) = repeat_sep k ++ join "/" cs.
Proof.
  intros Hk Hp Hs.
  set (J := join "/" cs).
  assert (HJ : startswith "/" J = false) by now apply join_not_absolute.
  assert (Habs : isabs (repeat_sep k ++ J) = true)
    by (destruct Hk as [-> | ->]; apply startswith_cons_slash).
  rewrite (normpath_absolute _ Habs).
  assert (Hi : initial_slashes (repeat_sep k ++ J) = k).
  { unfold initial_slashes. destruct Hk as [-> | ->]; cbn [repeat_sep append].
    - rewrite startswith_cons_slash, startswith_two, HJ. reflexivity.
    - rewrite startswith_cons_slash, !startswith_two, HJ.
      assert (E : startswith "" J = true) by (unfold startswith; now destruct J).
      now rewrite E.
  }
  rewrite Hi. f_equal.
  assert (Hc : collapse (split "/" J) = cs).
  { unfold collapse. destruct cs as [|x cs'] eqn:Ecs.
    - reflexivity.
    - subst J. rewrite split_join by (auto; discriminate).
      now rewrite collapse_onto_plain_list. }
  unfold collapse in *.
  destruct Hk as [-> | ->]; cbn [repeat_sep append split Ascii.eqb Bool.eqb];
    cbn [collapse_onto String.eqb orb]; now rewrite Hc.
Qed.

Lemma normpath_idempotent (q : string) :
  isabs q = true -> normpath (normpath q) = normpath q.
Proof.
  intros Hq. rewrite (normpath_absolute q Hq).
  apply normal_path_fixed.
  - now apply initial_slashes_absolute.
  - apply collapse_onto_plain. constructor.
  - apply Forall_forall. intros x Hx.
    apply collapse_onto_subset in Hx as [[]|Hx].
    now apply (split_pieces_free "/" q).
Qed.

(** *** A leading slash survives percent-decoding *)

Lemma runs_leading_slash (s : string) :
  exists r rest, runs (String "/" s) = (true, String "/" r) :: rest.
Proof.
  cbn [runs]. change (isascii_char "/") with true.
  destruct (runs s) as [|[k r] rest]; [now exists "", []|].
  destruct k; cbn [Bool.eqb]; eauto.
Qed.

Lemma concat_leading (x : string) (l : list string) :
  exists t, String.concat "" (String "/" x :: l) = String "/" t.
Proof. destruct l; cbn [String.concat append]; eauto. Qed.

Lemma unquote_leading_slash (s : string) :
  isabs s = true -> isabs (unquote s) = true.
Proof.
  intros H. destruct (startswith_slash_cons s H) as [s' ->].
  unfold unquote. destruct (contains "%" (String "/" s')); cbn [negb];
    [|apply startswith_cons_slash].
  destruct (runs_leading_slash s') as (r & rest & ->).
  cbn [map fst snd].
  rewrite (unquote_raw "/" r eq_refl).
  change (decode_utf8_replace (byte_of_ascii "/" :: Unquote.unquote_to_bytes r))
    with (String "/" (decode_utf8_replace (Unquote.unquote_to_bytes r))).
  destruct (concat_leading (decode_utf8_replace (Unquote.unquote_to_bytes r))
              (map (fun kr : bool * string =>
                      if fst kr
                      then decode_utf8_replace (Unquote.unquote_to_bytes (snd kr))
                      else snd kr) rest)) as [t ->].
  apply startswith_cons_slash.
Qed.

End ResultFacts.

(** X10.  A network location that [file_uri_to_path] returns is never
    empty and contains none of [/], [?], [#], tab, carriage return and line
    feed. *)
Theorem network_location_well_formed
  (env : platform) (uri host p : string) :
  file_uri_to_path env uri = Ok (Some host, p) ->
  host <> ""
  /\ contains "/" host = false /\ contains "?" host = false
  /\ contains "#" host = false
  /\ (forall c, is_unsafe_char c = true -> contains c host = false).
Proof.
  rewrite file_uri_to_path_normal_form.
  destruct (netloc_accepted env (parsed_netloc uri)); [|discriminate].
  destruct (String.eqb (parsed_scheme uri) "file"); [|discriminate].
  destruct (String.eqb_spec (parsed_netloc uri) "") as [|Hn]; [discriminate|].
  intros [= <- _].
  repeat split; try exact Hn;
    try (apply parsed_netloc_chars; left; reflexivity).
  intros c Hc. apply parsed_netloc_chars. now right.
Qed.

Lemma network_location_well_formed_witness :
  "server" <> "" /\ contains "/" "server" = false.
Proof.
  destruct (network_location_well_formed sample_platform
              "file://server/share/doc.txt" "server" "/share/doc.txt" eq_refl)
    as (H1 & H2 & _).
  split; assumption.
Defined.

(** X11.  The path [file_uri_to_path] returns is already normalized: making
    it absolute and normalizing it again gives the same path. *)
Theorem returned_path_is_fixed_point
  (env : platform) (uri p : string) (nl : option string) :
  PosixPath.isabs (getcwd env) = true ->
  file_uri_to_path env uri = Ok (nl, p) ->
  PosixPath.abspath env p = p.
Proof.
  intros Hcwd. rewrite file_uri_to_path_normal_form.
  destruct (netloc_accepted env (parsed_netloc uri)); [|discriminate].
  destruct (String.eqb (parsed_scheme uri) "file"); [|discriminate].
  intros [= _ <-].
  set (q := UnquoteStr.url2pathname (path_text (after_scheme uri))).
  unfold PosixPath.abspath at 2.
  set (full := if negb (PosixPath.isabs q)
               then PosixPath.join_path (getcwd env) q else q).
  assert (Hfull : PosixPath.isabs full = true).
  { subst full. destruct (PosixPath.isabs q) eqn:Hq; cbn [negb];
      [exact Hq | now apply join_path_absolute]. }
  unfold PosixPath.abspath.
  rewrite (normpath_is_absolute full Hfull). cbn [negb].
  now apply normpath_idempotent.
Qed.

Lemma returned_path_is_fixed_point_witness :
  PosixPath.abspath sample_platform "/home/user/docs/c.txt"
  = "/home/user/docs/c.txt".
Proof.
  exact (returned_path_is_fixed_point sample_platform
           "file:docs/./a%20b/../c.txt" "/home/user/docs/c.txt" None
           eq_refl eq_refl).
Defined.

(** X12.  When the path text of the URI starts with [/], the result does
    not depend on the current working directory. *)
Theorem absolute_path_ignores_cwd (env : platform) (cwd uri : string) :
  PosixPath.isabs (path_text (after_scheme uri)) = true ->
  file_uri_to_path (with_cwd env cwd) uri = file_uri_to_path env uri.
Proof.
  intros Hp. rewrite !file_uri_to_path_normal_form.
  change (netloc_accepted (with_cwd env cwd) (parsed_netloc uri))
    with (netloc_accepted env (parsed_netloc uri)).
  destruct (netloc_accepted env (parsed_netloc uri)); [|reflexivity].
  destruct (String.eqb (parsed_scheme uri) "file"); [|reflexivity].
  unfold PosixPath.abspath, UnquoteStr.url2pathname.
  now rewrite (unquote_leading_slash _ Hp).
Qed.

Lemma absolute_path_ignores_cwd_witness :
  file_uri_to_path (with_cwd sample_platform "/srv/data") "file:///tmp/a%20b.txt"
  = Ok (None, "/tmp/a b.txt").
Proof.
  etransitivity;
    [exact (absolute_path_ignores_cwd sample_platform "/srv/data"
              "file:///tmp/a%20b.txt" eq_refl)
    | reflexivity].
Defined.

(** ** Data after the base64 padding *)

Section Base64TailFacts.

Import Base64.

Lemma isascii_app (s t : string) :
  isascii (s ++ t) = isascii s && isascii t.
Proof.
  induction s as [|a s IH]; cbn [append isascii]; [reflexivity|].
  now rewrite IH, andb_assoc.
Qed.

Lemma mod3_step (n : nat) : (S (S (S n)) mod 3 = n mod 3)%nat.
Proof.
  replace (S (S (S n))) with (n + 1 * 3)%nat by lia.
  apply Nat.Div0.mod_add.
Qed.

Lemma a2b_loop_encode_tail_bounded (n : nat) (junk : string) :
  forall bs, (List.length bs <= n)%nat ->
             (List.length bs mod 3 <> 0)%nat ->
             a2b_loop (b64encode bs ++ junk) 0 0 0 = Some bs.
Proof.
  induction n as [|n IH]; intros bs Hn Hm.
  - destruct bs; [now contradiction Hm | simpl in Hn; lia].
  - destruct bs as [|a [|b [|c bs]]]; cbn [b64encode append].
    + now contradiction Hm.
    + rewrite loop_first, loop_second. reflexivity.
    + rewrite loop_first, loop_second, loop_third. reflexivity.
    + rewrite loop_first, loop_second, loop_third, loop_fourth.
      cbn [List.length] in Hn, Hm. rewrite mod3_step in Hm.
      rewrite IH by (auto; lia). reflexivity.
Qed.

End Base64TailFacts.

(** X13.  With the base64 flag set, decoding stops at a complete padding:
    when the payload starts with the padded encoding of a byte sequence
    whose length is not a multiple of three, whatever ASCII text follows the
    padding is ignored and the content is that byte sequence. *)
Theorem data_after_padding_ignored (meta junk : string) (bs : list byte) :
  contains "," meta = false ->
  flag_segment meta = true ->
  (List.length bs mod 3 <> 0)%nat ->
  isascii junk = true ->
  exists m a,
    parse_data_uri ("data:" ++ meta ++ "," ++ b64encode bs ++ junk)
    = Ok (m, a, bs).
Proof.
  intros Hm Hf Hl Hj.
  rewrite parse_data_uri_sections, decode_sections_flag by exact Hm.
  rewrite Hf. destruct (pop_mime_type (remaining_segments meta)) as [m parts].
  cbn [decode_content]. unfold Base64.b64decode, Base64.a2b_base64.
  rewrite isascii_app, Hj,
    (isascii_encode_bounded (List.length bs) bs (le_n _)).
  cbn [andb].
  rewrite (a2b_loop_encode_tail_bounded (List.length bs) junk bs (le_n _) Hl).
  cbn [bind]. eauto.
Qed.

Lemma data_after_padding_ignored_witness :
  exists m a,
    parse_data_uri "data:;base64,SGVsbG8=, and more"
    = Ok (m, a, list_byte_of_string "Hello").
Proof.
  exact (data_after_padding_ignored ";base64" ", and more"
           (list_byte_of_string "Hello") eq_refl eq_refl
           ltac:(vm_compute; discriminate) eq_refl).
Defined.

(** ** A URI without a path *)

Section EmptyPathFacts.

Import PosixPath.

Lemma append_empty (s : string) : s ++ "" = s.
Proof. induction s as [|a s IH]; cbn [append]; [reflexivity | now rewrite IH]. Qed.

Lemma split_trailing (c : ascii) (s : string) :
  split c (s ++ String c "") = (split c s ++ [""])%list.
Proof.
  induction s as [|a s IH]; cbn [append split].
  - now rewrite Ascii.eqb_refl.
  - rewrite IH. destruct (Ascii.eqb a c); [reflexivity|].
    destruct (split c s) as [|h t] eqn:E; [now apply split_not_nil in E|].
    reflexivity.
Qed.

Lemma collapse_onto_trailing (comps : list string) :
  forall stack,
    collapse_onto stack (comps ++ [""]) = collapse_onto stack comps.
Proof.
  induction comps as [|comp comps IH]; intros stack; [reflexivity|].
  cbn [app collapse_onto].
  destruct (_ || _); [apply IH|].
  destruct (String.eqb comp ".."); apply IH.
Qed.

Lemma initial_slashes_trailing (q : string) :
  isabs q = true ->
  String.eqb (slice_from (String.length q - 1) q) "/" = false ->
  initial_slashes (q ++ "/") = initial_slashes q.
Proof.
  intros Ha Hl. destruct (startswith_slash_cons q Ha) as [q' ->].
  unfold initial_slashes.
  destruct q' as [|y [|z q'']].
  - discriminate.
  - cbn [String.length Nat.sub slice_from String.eqb] in Hl.
    assert (Hy : Ascii.eqb "/" y = false)
      by (rewrite Ascii.eqb_sym; destruct (Ascii.eqb y "/");
          [discriminate | reflexivity]).
    cbn [append]. rewrite !startswith_cons_slash, !startswith_two.
    unfold startswith. rewrite !prefix_cons, Hy.
    reflexivity.
  - cbn [append]. rewrite !startswith_cons_slash, !startswith_two.
    unfold startswith. rewrite !prefix_cons.
    destruct (Ascii.eqb "/" y); [|reflexivity].
    destruct (Ascii.eqb "/" z); [|reflexivity].
    assert (E : forall s, String.prefix "" s = true) by (intros []; reflexivity).
    now rewrite !E.
Qed.

Lemma normpath_trailing_slash (q : string) :
  isabs q = true ->
  String.eqb (slice_from (String.length q - 1) q) "/" = false ->
  normpath (q ++ "/") = normpath q.
Proof.
  intros Ha Hl.
  assert (Ha' : isabs (q ++ "/") = true).
  { destruct (startswith_slash_cons q Ha) as [q' ->].
    apply startswith_cons_slash. }
  rewrite (normpath_absolute _ Ha'), (normpath_absolute _ Ha).
  rewrite (initial_slashes_trailing q Ha Hl).
  unfold collapse.
  now rewrite (split_trailing "/" q), collapse_onto_trailing.
Qed.

Lemma abspath_empty (env : platform) :
  isabs (getcwd env) = true -> abspath env "" = normpath (getcwd env).
Proof.
  intros Ha. unfold abspath, join_path.
  change (isabs "") with false. change (startswith "/" "") with false.
  cbn [negb].
  destruct (String.eqb (getcwd env) "") eqn:E0; cbn [orb].
  - now rewrite append_empty.
  - destruct (String.eqb (slice_from (String.length (getcwd env) - 1)
                            (getcwd env)) "/") eqn:E1.
    + now rewrite append_empty.
    + change ("/" ++ "") with "/". now apply normpath_trailing_slash.
Qed.

End EmptyPathFacts.

(** X14.  A file URI whose path text is empty, such as [file:] or
    [file://host], decodes to the normalized current working directory. *)
Theorem empty_path_is_working_directory
  (env : platform) (uri p : string) (nl : option string) :
  PosixPath.isabs (getcwd env) = true ->
  path_text (after_scheme uri) = "" ->
  file_uri_to_path env uri = Ok (nl, p) ->
  p = PosixPath.normpath (getcwd env).
Proof.
  intros Hcwd Hp. rewrite file_uri_to_path_normal_form, Hp.
  destruct (netloc_accepted env (parsed_netloc uri)); [|discriminate].
  destruct (String.eqb (parsed_scheme uri) "file"); [|discriminate].
  intros [= _ <-].
  change (UnquoteStr.url2pathname "") with "".
  now apply abspath_empty.
Qed.

Lemma empty_path_is_working_directory_witness :
  "/home/user" = PosixPath.normpath (getcwd sample_platform).
Proof.
  exact (empty_path_is_working_directory sample_platform "file://server"
           "/home/user" (Some "server") eq_refl eq_refl eq_refl).
Defined.
